(** * aqua-insight-voice: the groundwater chat component

    A shallow embedding of [src/components/GroundwaterChat.tsx] and of
    [src/pages/Index.tsx]: the message record, the intent dispatcher
    [generateResponse], the event handlers of the component as functions on
    its React state, and the event loop of the page as a step function.

    Conventions.
    - A JavaScript string is modelled by [string], the sequence of bytes of
      its UTF-8 encoding (the encoding of the source file itself).  For
      well-formed text a substring test on the bytes agrees with the test on
      UTF-16 code units that the engine performs.
    - [Date.now()] and [new Date()] are readings of the platform clock, in
      milliseconds; a handler receives the readings it makes as a [Tick].
    - A value captured by a closure (the [language] prop, [userLocation],
      [inputValue]) is an explicit argument of the handler that captures it. *)

From Stdlib Require Import ZArith List String Ascii Bool Lia.
From Stdlib Require Import DecimalString DecimalPos DecimalZ PrimFloat.
Import ListNotations.
Open Scope string_scope.

(** ** The JavaScript built-ins used by the component *)

Module JS.

(** The string made of the given byte values. *)
Fixpoint bytes (l : list nat) : string :=
  match l with
  | [] => ""
  | n :: l' => String (ascii_of_nat n) (bytes l')
  end.

(** [String.prototype.toLowerCase], byte by byte: the letters A..Z go to
    a..z and every other byte stays.  This is the engine's result on text
    whose characters outside ASCII are uncased, as Devanagari is; cased
    letters outside ASCII are beyond this model. *)
Definition lowerAscii (c : ascii) : ascii :=
  let n := nat_of_ascii c in
  if (65 <=? n)%nat && (n <=? 90)%nat then ascii_of_nat (n + 32) else c.

Fixpoint toLowerCase (s : string) : string :=
  match s with
  | "" => ""
  | String c s' => String (lowerAscii c) (toLowerCase s')
  end.

(** [s.startsWith(p)]. *)
Fixpoint startsWith (p s : string) : bool :=
  match p, s with
  | "", _ => true
  | String _ _, "" => false
  | String a p', String b s' => Ascii.eqb a b && startsWith p' s'
  end.

(** [s.includes(sub)]: [sub] occurs in [s] at some position. *)
Fixpoint includes (s sub : string) : bool :=
  startsWith sub s ||
  match s with
  | "" => false
  | String _ s' => includes s' sub
  end.

(** ECMAScript WhiteSpace and LineTerminator code points, UTF-8 encoded:
    TAB, LF, VT, FF, CR, SP, U+00A0, U+1680, U+2000..U+200A, U+2028,
    U+2029, U+202F, U+205F, U+3000, U+FEFF. *)
Definition whiteSpace : list string :=
  map bytes
    [ [9]; [10]; [11]; [12]; [13]; [32]; [194; 160]; [225; 154; 128];
      [226; 128; 128]; [226; 128; 129]; [226; 128; 130]; [226; 128; 131];
      [226; 128; 132]; [226; 128; 133]; [226; 128; 134]; [226; 128; 135];
      [226; 128; 136]; [226; 128; 137]; [226; 128; 138]; [226; 128; 168];
      [226; 128; 169]; [226; 128; 175]; [226; 129; 159]; [227; 128; 128]; [239; 187; 191] ].

(** Length of the token of [toks] that [s] starts with, 0 when none. *)
Fixpoint tokenAt (toks : list string) (s : string) : nat :=
  match toks with
  | [] => 0
  | t :: toks' => if startsWith t s then String.length t else tokenAt toks' s
  end.

(** Drop every leading token of [toks]; [skip] counts the bytes of the
    current token still to be dropped. *)
Fixpoint dropTokens (toks : list string) (skip : nat) (s : string) : string :=
  match s with
  | "" => ""
  | String c s' =>
      match skip with
      | S k => dropTokens toks k s'
      | O =>
          match tokenAt toks s with
          | O => s
          | S k => dropTokens toks k s'
          end
      end
  end.

Fixpoint revOnto (s acc : string) : string :=
  match s with
  | "" => acc
  | String c s' => revOnto s' (String c acc)
  end.

Definition reverse (s : string) : string := revOnto s "".

Definition trimStart (s : string) : string := dropTokens whiteSpace 0 s.

Definition trimEnd (s : string) : string :=
  reverse (dropTokens (map reverse whiteSpace) 0 (reverse s)).

(** [String.prototype.trim]. *)
Definition trim (s : string) : string := trimEnd (trimStart s).

(** Truthiness of a string: only the empty string is falsy. *)
Definition truthy (s : string) : bool :=
  match s with "" => false | _ => true end.

(** [Number.prototype.toString] on an integer: its decimal digits. *)
Definition toString (n : Z) : string := NilZero.string_of_int (Z.to_int n).

(** [a && b] and [a?.f] on an optional flag: [undefined] is falsy. *)
Definition flag (o : option bool) : bool :=
  match o with Some b => b | None => false end.

End JS.

(** ** Data model *)

Inductive Language := en | hi.

(** The [data] payload; the component only ever builds [{ isPrediction: true }]. *)
Record Payload := { isPrediction : bool }.

Record Message := {
  id : string;
  text : string;
  isUser : bool;
  timestamp : Z;
  data : option Payload;
  showChart : option bool;
  showComparison : option bool;
  suggestions : option (list string)
}.

Record LocationData := {
  latitude : float;
  longitude : float;
  city : option string;
  state : option string
}.

Inductive Permission := pending | granted | denied.

(** The clock readings of one handler run: [Date.now()] for the id and
    [new Date()] for the timestamp. *)
Record Tick := { DateNow : Z; NewDate : Z }.

(** [language === 'hi' ? a : b] *)
Definition ifHi {A} (language : Language) (a b : A) : A :=
  match language with hi => a | en => b end.

(** The translation table; only [sampleQueries] feeds the handlers. *)
Definition sampleQueries (language : Language) : list string :=
  match language with
  | en => [ "Show groundwater quality in Delhi";
            "Compare water levels between Mumbai and Pune";
            "Predict water levels for next 5 years in Bangalore" ]
  | hi => [ "दिल्ली में भूजल गुणवत्ता दिखाएं";
            "मुंबई और पुणे के बीच पानी के स्तर की तुलना करें";
            "बैंगलोर में अगले 5 साल के लिए पानी के स्तर की भविष्यवाणी करें" ]
  end.

(** ** The intent dispatcher *)

Section Dispatcher.

(** Captured by the closure: the [language] prop and the [userLocation]
    state of the render in which the call was made.  [tick] is read after
    the simulated latency. *)
Variable language : Language.
Variable userLocation : option LocationData.
Variable tick : Tick.

(** [userLocation ? a : b] *)
Definition ifLocated {A} (a b : A) : A :=
  match userLocation with Some _ => a | None => b end.

Definition qualityResponse : Message :=
  {| id := JS.toString (DateNow tick);
     text := ifHi language
       (ifLocated "आपके क्षेत्र" "इस क्षेत्र" ++
        " के लिए भूजल गुणवत्ता डेटा। डेटा से पता चलता है कि पानी की गुणवत्ता अच्छी है।")
       ("Groundwater quality data for " ++ ifLocated "your area" "this area" ++
        ". The data shows good water quality with acceptable TDS levels.");
     isUser := false;
     timestamp := NewDate tick;
     data := None;
     showChart := Some true;
     showComparison := None;
     suggestions := Some
       [ ifHi language "पानी का स्तर ट्रेंड दिखाएं" "Show water level trends";
         ifHi language "अन्य शहरों से तुलना करें" "Compare with other cities";
         ifHi language "भविष्य की भविष्यवाणी" "Future predictions" ] |}.

Definition comparisonResponse : Message :=
  {| id := JS.toString (DateNow tick);
     text := ifHi language
       "यहाँ दो स्थानों के बीच भूजल की तुलना है।"
       "Here's a comparison of groundwater data between the two locations.";
     isUser := false;
     timestamp := NewDate tick;
     data := None;
     showChart := None;
     showComparison := Some true;
     suggestions := Some
       [ ifHi language "और शहर जोड़ें" "Add more cities";
         ifHi language "विस्तृत रिपोर्ट" "Detailed report";
         ifHi language "डाउनलोड डेटा" "Download data" ] |}.

Definition predictionResponse : Message :=
  {| id := JS.toString (DateNow tick);
     text := ifHi language
       "अगले 5 साल के लिए भूजल स्तर की भविष्यवाणी दिखाई गई है।"
       "Here's the 5-year prediction for groundwater levels in your area.";
     isUser := false;
     timestamp := NewDate tick;
     data := Some {| isPrediction := true |};
     showChart := Some true;
     showComparison := None;
     suggestions := Some
       [ ifHi language "जोखिम विश्लेषण" "Risk analysis";
         ifHi language "सुझाव दें" "Get recommendations";
         ifHi language "अलार्ट सेट करें" "Set alerts" ] |}.

Definition levelResponse : Message :=
  {| id := JS.toString (DateNow tick);
     text := ifHi language
       (ifLocated "आपके क्षेत्र" "इस क्षेत्र" ++ " में वर्तमान भूजल स्तर सामान्य है।")
       ("Current groundwater level in " ++ ifLocated "your area" "this area" ++
        " is normal.");
     isUser := false;
     timestamp := NewDate tick;
     data := None;
     showChart := Some true;
     showComparison := None;
     suggestions := Some
       [ ifHi language "ऐतिहासिक डेटा" "Historical data";
         ifHi language "मासिक ट्रेंड" "Monthly trends";
         ifHi language "अन्य स्थान देखें" "Check other locations" ] |}.

Definition defaultResponse : Message :=
  {| id := JS.toString (DateNow tick);
     text := ifHi language
       "मैं आपकी मदद करने के लिए यहाँ हूँ। कृपया भूजल गुणवत्ता, तुलना या भविष्यवाणी के बारे में पूछें।"
       "I'm here to help you with groundwater information. Please ask about water quality, comparisons, or predictions.";
     isUser := false;
     timestamp := NewDate tick;
     data := None;
     showChart := None;
     showComparison := None;
     suggestions := Some
       [ ifHi language "पानी की गुणवत्ता जांचें" "Check water quality";
         ifHi language "शहरों की तुलना" "Compare cities";
         ifHi language "भविष्य की रिपोर्ट" "Future reports" ] |}.

(** The body of [generateResponse] after the awaited delay. *)
Definition generateResponse (userMessage : string) : Message :=
  let lowerMessage := JS.toLowerCase userMessage in
  if JS.includes lowerMessage "quality" || JS.includes lowerMessage "गुणवत्ता" then
    qualityResponse
  else if JS.includes lowerMessage "compare" || JS.includes lowerMessage "तुलना" then
    comparisonResponse
  else if JS.includes lowerMessage "predict" || JS.includes lowerMessage "भविष्यवाणी" then
    predictionResponse
  else if JS.includes lowerMessage "level" || JS.includes lowerMessage "स्तर" then
    levelResponse
  else
    defaultResponse.

End Dispatcher.

(** What the renderer reads off a message. *)
Definition chartFlag (m : Message) : bool := JS.flag (showChart m).
Definition comparisonFlag (m : Message) : bool := JS.flag (showComparison m).
(** [message.data?.isPrediction] *)
Definition predictionMarker (m : Message) : bool :=
  match data m with Some p => isPrediction p | None => false end.

(** ** Component state *)

(** The object held by [recognitionRef.current]: its configuration and the
    [language] captured by the callbacks installed on it. *)
Record Recognition := {
  continuous : bool;
  interimResults : bool;
  lang : string;
  callbackLanguage : Language
}.

(** The [useState] cells and the [recognitionRef] of [GroundwaterChat]. *)
Record State := {
  messages : list Message;
  inputValue : string;
  isListening : bool;
  isProcessing : bool;
  userLocation : option LocationData;
  locationPermission : Permission;
  recognitionRef : option Recognition
}.

Definition initialState : State :=
  {| messages := []; inputValue := ""; isListening := false;
     isProcessing := false; userLocation := None;
     locationPermission := pending; recognitionRef := None |}.

(** [setMessages] with an updater; [setMessages(v)] is [setMessages (fun _ => v)]. *)
Definition setMessages (f : list Message -> list Message) (s : State) : State :=
  {| messages := f (messages s); inputValue := inputValue s;
     isListening := isListening s; isProcessing := isProcessing s;
     userLocation := userLocation s; locationPermission := locationPermission s;
     recognitionRef := recognitionRef s |}.

Definition setInputValue (v : string) (s : State) : State :=
  {| messages := messages s; inputValue := v;
     isListening := isListening s; isProcessing := isProcessing s;
     userLocation := userLocation s; locationPermission := locationPermission s;
     recognitionRef := recognitionRef s |}.

Definition setIsListening (b : bool) (s : State) : State :=
  {| messages := messages s; inputValue := inputValue s;
     isListening := b; isProcessing := isProcessing s;
     userLocation := userLocation s; locationPermission := locationPermission s;
     recognitionRef := recognitionRef s |}.

Definition setIsProcessing (b : bool) (s : State) : State :=
  {| messages := messages s; inputValue := inputValue s;
     isListening := isListening s; isProcessing := b;
     userLocation := userLocation s; locationPermission := locationPermission s;
     recognitionRef := recognitionRef s |}.

Definition setUserLocation (l : option LocationData) (s : State) : State :=
  {| messages := messages s; inputValue := inputValue s;
     isListening := isListening s; isProcessing := isProcessing s;
     userLocation := l; locationPermission := locationPermission s;
     recognitionRef := recognitionRef s |}.

Definition setLocationPermission (p : Permission) (s : State) : State :=
  {| messages := messages s; inputValue := inputValue s;
     isListening := isListening s; isProcessing := isProcessing s;
     userLocation := userLocation s; locationPermission := p;
     recognitionRef := recognitionRef s |}.

Definition setRecognitionRef (r : option Recognition) (s : State) : State :=
  {| messages := messages s; inputValue := inputValue s;
     isListening := isListening s; isProcessing := isProcessing s;
     userLocation := userLocation s; locationPermission := locationPermission s;
     recognitionRef := r |}.

(** An assistant message that carries only text (the error notices). *)
Definition notice (tick : Tick) (body : string) : Message :=
  {| id := JS.toString (DateNow tick); text := body; isUser := false;
     timestamp := NewDate tick; data := None; showChart := None;
     showComparison := None; suggestions := None |}.

(** [setMessages(prev => [...prev, m])] *)
Definition pushMessage (m : Message) : State -> State :=
  setMessages (fun prev => (prev ++ [m])%list).

(** ** Speech input *)

(** The first effect: build the recognizer when the platform has one. *)
Definition initRecognition (hasSpeechRecognition : bool) (language : Language)
    (s : State) : State :=
  if hasSpeechRecognition then
    setRecognitionRef
      (Some {| continuous := false; interimResults := false;
               lang := ifHi language "hi-IN" "en-US";
               callbackLanguage := language |}) s
  else s.

Definition onstart (s : State) : State := setIsListening true s.

Definition onresult (transcript : string) (s : State) : State :=
  setIsListening false (setInputValue transcript s).

Definition errorMessage (language : Language) (error : string) : string :=
  if String.eqb error "not-allowed" then
    ifHi language "माइक्रोफोन की अनुमति दें" "Please allow microphone access"
  else if String.eqb error "no-speech" then
    ifHi language "कोई आवाज नहीं सुनी गई" "No speech detected"
  else
    ifHi language "वॉइस रिकॉग्निशन में समस्या" "Voice recognition error".

Definition onerror (language : Language) (tick : Tick) (error : string)
    (s : State) : State :=
  pushMessage (notice tick (errorMessage language error)) (setIsListening false s).

Definition onend (s : State) : State := setIsListening false s.

(** How a call completes: normally with a value, or by throwing. *)
Inductive Completion (A : Type) :=
| Normal (a : A)
| Throw (error : string).
Arguments Normal {A} a.
Arguments Throw {A} error.

Definition andThen {A B} (c : Completion A) (k : A -> Completion B) : Completion B :=
  match c with Normal a => k a | Throw e => Throw e end.

(** [try { body } catch (error) { handler }] *)
Definition tryCatch {A} (body : Completion A) (handler : string -> Completion A)
    : Completion A :=
  match body with Normal a => Normal a | Throw e => handler e end.

(** [startListening].  [protocol] and [hostname] are those of [location];
    [start] is how [recognitionRef.current.start()] completes when called.
    The boolean of the result tells whether a session was started. *)
Definition startListening (language : Language) (tick : Tick)
    (protocol hostname : string) (start : Completion unit) (s : State)
    : Completion (State * bool) :=
  match recognitionRef s with
  | None =>
      Normal (pushMessage (notice tick
                (ifHi language "वॉइस रिकॉग्निशन उपलब्ध नहीं है"
                               "Voice recognition not available")) s, false)
  | Some _ =>
      if negb (String.eqb protocol "https:") && negb (String.eqb hostname "localhost")
      then
        Normal (pushMessage (notice tick
                  (ifHi language "HTTPS कनेक्शन की आवश्यकता"
                                 "HTTPS connection required for voice")) s, false)
      else
        tryCatch
          (andThen start (fun _ => Normal (s, true)))
          (fun _ =>
             Normal (pushMessage (notice tick
                       (ifHi language "वॉइस रिकॉग्निशन शुरू नहीं हो सका"
                                      "Could not start voice recognition"))
                       (setIsListening false s), false))
  end.

(** ** Geolocation *)

Record Position := { coords_latitude : float; coords_longitude : float }.

Definition welcomeMessage (language : Language) (tick : Tick) : Message :=
  {| id := JS.toString (DateNow tick);
     text := ifHi language
       "आपका स्थान मिल गया! अब मैं आपके क्षेत्र के लिए भूजल की जानकारी प्रदान कर सकता हूं।"
       "Location found! I can now provide groundwater information for your area.";
     isUser := false;
     timestamp := NewDate tick;
     data := None; showChart := None; showComparison := None;
     suggestions := Some
       [ ifHi language "मेरे क्षेत्र में पानी की गुणवत्ता कैसी है?" "How is water quality in my area?";
         ifHi language "पानी का स्तर दिखाएं" "Show water levels";
         ifHi language "5 साल की भविष्यवाणी" "5-year prediction" ] |}.

Definition deniedMessage (language : Language) (tick : Tick) : Message :=
  {| id := JS.toString (DateNow tick);
     text := ifHi language
       "स्थान की अनुमति नहीं मिली। आप अभी भी किसी भी स्थान के बारे में पूछ सकते हैं।"
       "Location permission denied. You can still ask about any location.";
     isUser := false;
     timestamp := NewDate tick;
     data := None; showChart := None; showComparison := None;
     suggestions := Some
       [ ifHi language "दिल्ली में पानी की गुणवत्ता" "Water quality in Delhi";
         ifHi language "मुंबई और पुणे की तुलना" "Compare Mumbai and Pune";
         ifHi language "बैंगलोर का डेटा" "Bangalore data" ] |}.

(** The success callback given to [getCurrentPosition]. *)
Definition onPosition (language : Language) (tick : Tick) (position : Position)
    (s : State) : State :=
  let location := {| latitude := coords_latitude position;
                     longitude := coords_longitude position;
                     city := None; state := None |} in
  setMessages (fun _ => [welcomeMessage language tick])
    (setLocationPermission granted (setUserLocation (Some location) s)).

(** The error callback given to [getCurrentPosition]. *)
Definition onPositionError (language : Language) (tick : Tick) (s : State) : State :=
  setMessages (fun _ => [deniedMessage language tick])
    (setLocationPermission denied s).

(** [requestLocationPermission]: the boolean tells whether
    [getCurrentPosition] was called, leaving one of the two callbacks due. *)
Definition requestLocationPermission (hasGeolocation : bool) (s : State)
    : State * bool :=
  if negb hasGeolocation then (setLocationPermission denied s, false)
  else (s, true).

(** ** Submitting *)

(** The suspended call [generateResponse(inputValue)]: its argument and the
    [language] and [userLocation] of the render that made the call. *)
Record Pending := {
  pendingMessage : string;
  pendingLanguage : Language;
  pendingLocation : option LocationData
}.

(** [handleSendMessage] up to its [await]: the new state and the call it is
    suspended on, if it got that far. *)
Definition handleSendMessage (language : Language) (tick : Tick) (s : State)
    : State * option Pending :=
  if negb (JS.truthy (JS.trim (inputValue s))) then (s, None)
  else
    let userMessage :=
      {| id := JS.toString (DateNow tick); text := inputValue s; isUser := true;
         timestamp := NewDate tick; data := None; showChart := None;
         showComparison := None; suggestions := None |} in
    (setIsProcessing true (setInputValue "" (pushMessage userMessage s)),
     Some {| pendingMessage := inputValue s; pendingLanguage := language;
             pendingLocation := userLocation s |}).

(** [handleSendMessage] from its [await] on, run when the timer has fired:
    [tick] is read then, [s] is the state of that moment. *)
Definition resume (p : Pending) (tick : Tick) (s : State) : State :=
  let response :=
    generateResponse (pendingLanguage p) (pendingLocation p) tick (pendingMessage p) in
  setIsProcessing false (pushMessage response s).

Definition handleSampleQuery (query : string) (s : State) : State :=
  setInputValue query s.

(** ** The page and its event loop *)

(** What the browser offers: the two optional capabilities and [location]. *)
Record Platform := {
  hasSpeechRecognition : bool;
  hasGeolocation : bool;
  protocol : string;
  hostname : string
}.

(** The [language] cell of [Index], the component state, and the work the
    platform still owes the component: the [getCurrentPosition] callback
    (with the [language] it captured), the suspended [generateResponse]
    calls in timer order, and the running recognition session (with the
    [language] its callbacks captured). *)
Record World := {
  pageLanguage : Language;
  chat : State;
  positionDue : option Language;
  replies : list Pending;
  session : option Language
}.

Definition withChat (f : State -> State) (w : World) : World :=
  {| pageLanguage := pageLanguage w; chat := f (chat w);
     positionDue := positionDue w; replies := replies w; session := session w |}.

(** The [disabled] attributes of the three controls. *)
Definition inputDisabled (s : State) : bool := isListening s || isProcessing s.

(** The microphone button.  The page computes this attribute at render
    from [recognitionRef.current], and the first effect fills the ref
    without a render of its own: from mount until the first change of
    state the page still shows the button disabled although the ref is
    set.  Here the ref is read as it is, so the button is enabled no later
    than on the page; a click the page allows is allowed here, and every
    world the page reaches is reached here. *)
Definition micDisabled (s : State) : bool :=
  match recognitionRef s with None => true | Some _ => false end
  || isListening s || isProcessing s.

Definition sendDisabled (s : State) : bool :=
  negb (JS.truthy (JS.trim (inputValue s))) || isProcessing s.

(** The chips on screen: the sample queries while the store is empty, and
    the suggestions of every assistant message. *)
Definition chipsShown (language : Language) (s : State) : list string :=
  (match messages s with [] => sampleQueries language | _ => [] end ++
   flat_map (fun m => match suggestions m with
                      | Some l => if isUser m then [] else l
                      | None => []
                      end) (messages s))%list.

Inductive Event :=
| Change (value : string)
| KeyPress (key : string) (shiftKey : bool) (tick : Tick)
| ClickSend (tick : Tick)
| TimerFired (tick : Tick)
| ClickMic (tick : Tick) (start : Completion unit)
| SpeechStart
| SpeechResult (transcript : string)
| SpeechError (error : string) (tick : Tick)
| SpeechEnd
| PositionFound (position : Position) (tick : Tick)
| PositionFailed (tick : Tick)
| ClickLanguage
| ClickChip (query : string).

(** A call of [handleSendMessage] from the current render. *)
Definition submit (tick : Tick) (w : World) : World :=
  let (s, p) := handleSendMessage (pageLanguage w) tick (chat w) in
  {| pageLanguage := pageLanguage w; chat := s; positionDue := positionDue w;
     replies := (replies w ++ match p with Some q => [q] | None => [] end)%list;
     session := session w |}.

(** [handleKeyPress] *)
Definition handleKeyPress (key : string) (shiftKey : bool) (tick : Tick)
    (w : World) : World :=
  if String.eqb key "Enter" && negb shiftKey then submit tick w else w.

(** [onLanguageChange(language === 'en' ? 'hi' : 'en')], that is
    [setLanguage] of [Index]. *)
Definition toggle (language : Language) : Language :=
  match language with en => hi | hi => en end.

Section Loop.

Variable platform : Platform.

(** The first render and its effects, in order. *)
Definition mount : World :=
  let s := initRecognition (hasSpeechRecognition platform) en initialState in
  let (s', due) := requestLocationPermission (hasGeolocation platform) s in
  {| pageLanguage := en; chat := s';
     positionDue := if due then Some en else None;
     replies := []; session := None |}.

(** One event of the loop.  An event on a disabled control, or one the
    platform does not owe, changes nothing. *)
Definition step (e : Event) (w : World) : World :=
  match e with
  | Change value =>
      if inputDisabled (chat w) then w else withChat (setInputValue value) w
  | KeyPress key shiftKey tick =>
      if inputDisabled (chat w) then w else handleKeyPress key shiftKey tick w
  | ClickSend tick =>
      if sendDisabled (chat w) then w else submit tick w
  | TimerFired tick =>
      match replies w with
      | [] => w
      | p :: rest =>
          {| pageLanguage := pageLanguage w; chat := resume p tick (chat w);
             positionDue := positionDue w; replies := rest;
             session := session w |}
      end
  | ClickMic tick start =>
      if micDisabled (chat w) then w
      else
        match startListening (pageLanguage w) tick (protocol platform)
                (hostname platform) start (chat w) with
        | Normal (s, started) =>
            {| pageLanguage := pageLanguage w; chat := s;
               positionDue := positionDue w; replies := replies w;
               session :=
                 if started
                 then option_map callbackLanguage (recognitionRef (chat w))
                 else session w |}
        | Throw _ => w
        end
  | SpeechStart =>
      match session w with Some _ => withChat onstart w | None => w end
  | SpeechResult transcript =>
      match session w with
      | Some _ => withChat (onresult transcript) w
      | None => w
      end
  | SpeechError error tick =>
      match session w with
      | Some language => withChat (onerror language tick error) w
      | None => w
      end
  | SpeechEnd =>
      match session w with
      | Some _ =>
          {| pageLanguage := pageLanguage w; chat := onend (chat w);
             positionDue := positionDue w; replies := replies w;
             session := None |}
      | None => w
      end
  | PositionFound position tick =>
      match positionDue w with
      | Some language =>
          {| pageLanguage := pageLanguage w;
             chat := onPosition language tick position (chat w);
             positionDue := None; replies := replies w; session := session w |}
      | None => w
      end
  | PositionFailed tick =>
      match positionDue w with
      | Some language =>
          {| pageLanguage := pageLanguage w;
             chat := onPositionError language tick (chat w);
             positionDue := None; replies := replies w; session := session w |}
      | None => w
      end
  | ClickLanguage =>
      let language := toggle (pageLanguage w) in
      {| pageLanguage := language;
         chat := initRecognition (hasSpeechRecognition platform) language (chat w);
         positionDue := positionDue w; replies := replies w;
         session := session w |}
  | ClickChip query =>
      if existsb (String.eqb query) (chipsShown (pageLanguage w) (chat w))
      then withChat (handleSampleQuery query) w
      else w
  end.

Definition run (events : list Event) : World :=
  fold_left (fun w e => step e w) events mount.

Definition reachable (w : World) : Prop := exists events, run events = w.

End Loop.

(** ** The chart component *)

Record GroundwaterDataPoint := {
  year : string;
  waterLevel : float;
  quality : float;
  tds : float;
  predicted : option bool
}.

#[warnings="-inexact-float"]
Definition historicalData : list GroundwaterDataPoint :=
  [ {| year := "2019"; waterLevel := 15.2; quality := 85; tds := 450; predicted := None |};
    {| year := "2020"; waterLevel := 14.8; quality := 82; tds := 470; predicted := None |};
    {| year := "2021"; waterLevel := 13.5; quality := 78; tds := 520; predicted := None |};
    {| year := "2022"; waterLevel := 12.8; quality := 75; tds := 580; predicted := None |};
    {| year := "2023"; waterLevel := 11.9; quality := 72; tds := 620; predicted := None |};
    {| year := "2024"; waterLevel := 11.2; quality := 70; tds := 650; predicted := None |} ].

#[warnings="-inexact-float"]
Definition predictiveData : list GroundwaterDataPoint :=
  (historicalData ++
   [ {| year := "2025"; waterLevel := 10.5; quality := 68; tds := 680; predicted := Some true |};
     {| year := "2026"; waterLevel := 9.8; quality := 65; tds := 720; predicted := Some true |};
     {| year := "2027"; waterLevel := 9.2; quality := 62; tds := 760; predicted := Some true |};
     {| year := "2028"; waterLevel := 8.6; quality := 58; tds := 800; predicted := Some true |};
     {| year := "2029"; waterLevel := 8.1; quality := 55; tds := 840; predicted := Some true |} ])%list.

(** [const data = isPrediction ? predictiveData : historicalData] *)
Definition chartData (isPrediction : bool) : list GroundwaterDataPoint :=
  if isPrediction then predictiveData else historicalData.

(** [data[props.index]?.predicted], as the dot of the prediction line
    tests it: whether a marker is drawn at [index]. *)
Definition isPredict (data : list GroundwaterDataPoint) (index : nat) : bool :=
  match nth_error data index with
  | Some point => JS.flag (predicted point)
  | None => false
  end.

(** ** What a message bubble shows *)

(** The parts below the text of a bubble: the chart with its
    [isPrediction] prop, the comparison, the row of chips. *)
Inductive Part :=
| ChartPart (isPrediction : bool)
| ComparisonPart
| ChipsPart (chips : list string).

(** The body of [messages.map] in the render. *)
Definition bubble (m : Message) : list Part :=
  ((if chartFlag m then [ChartPart (predictionMarker m)] else []) ++
   (if comparisonFlag m then [ComparisonPart] else []) ++
   match suggestions m with
   | Some chips => if negb (isUser m) then [ChipsPart chips] else []
   | None => []
   end)%list.

(** ** The earlier variant of the component *)

Module Previous.

(** [generateResponse] of the earlier variant of the chat component: no
    location, no level intent, no chips. *)
Definition generateResponse (language : Language) (tick : Tick)
    (userMessage : string) : Message :=
  let lowerMessage := JS.toLowerCase userMessage in
  if JS.includes lowerMessage "quality" || JS.includes lowerMessage "गुणवत्ता" then
    {| id := JS.toString (DateNow tick);
       text := ifHi language
         "यहाँ आपके क्षेत्र के लिए भूजल गुणवत्ता डेटा है। डेटा से पता चलता है कि पानी की गुणवत्ता अच्छी है।"
         "Here's the groundwater quality data for your area. The data shows good water quality with acceptable TDS levels.";
       isUser := false;
       timestamp := NewDate tick;
       data := None;
       showChart := Some true;
       showComparison := None;
       suggestions := None |}
  else if JS.includes lowerMessage "compare" || JS.includes lowerMessage "तुलना" then
    {| id := JS.toString (DateNow tick);
       text := ifHi language
         "यहाँ दो स्थानों के बीच भूजल की तुलना है।"
         "Here's a comparison of groundwater data between the two locations.";
       isUser := false;
       timestamp := NewDate tick;
       data := None;
       showChart := None;
       showComparison := Some true;
       suggestions := None |}
  else if JS.includes lowerMessage "predict" || JS.includes lowerMessage "भविष्यवाणी" then
    {| id := JS.toString (DateNow tick);
       text := ifHi language
         "अगले 5 साल के लिए भूजल स्तर की भविष्यवाणी दिखाई गई है।"
         "Here's the 5-year prediction for groundwater levels in your area.";
       isUser := false;
       timestamp := NewDate tick;
       data := Some {| isPrediction := true |};
       showChart := Some true;
       showComparison := None;
       suggestions := None |}
  else
    {| id := JS.toString (DateNow tick);
       text := ifHi language
         "मैं आपकी मदद करने के लिए यहाँ हूँ। कृपया भूजल गुणवत्ता, तुलना या भविष्यवाणी के बारे में पूछें।"
         "I'm here to help you with groundwater information. Please ask about water quality, comparisons, or predictions.";
       isUser := false;
       timestamp := NewDate tick;
       data := None;
       showChart := None;
       showComparison := None;
       suggestions := None |}.

End Previous.

(** * Vocabulary of the properties *)

(** [sub] occurs in [text]. *)
Definition occursIn (sub text : string) : Prop :=
  exists before after, text = before ++ sub ++ after.

(** [keyword] occurs in [text] up to the case of letters: some stretch of
    [text] lower-cases to [keyword]. *)
Definition occursIgnoringCase (keyword text : string) : Prop :=
  exists before stretch after,
    text = before ++ stretch ++ after /\ JS.toLowerCase stretch = keyword.

Inductive Intent := Quality | Comparison | Prediction | Level | Help.

(** The English and the Hindi keyword of an intent. *)
Definition keywords (i : Intent) : option (string * string) :=
  match i with
  | Quality => Some ("quality", "गुणवत्ता")
  | Comparison => Some ("compare", "तुलना")
  | Prediction => Some ("predict", "भविष्यवाणी")
  | Level => Some ("level", "स्तर")
  | Help => None
  end.

(** [text] mentions intent [i]: one of its two keywords occurs, up to case. *)
Definition mentions (text : string) (i : Intent) : Prop :=
  match keywords i with
  | Some (english, hindi) =>
      occursIgnoringCase english text \/ occursIgnoringCase hindi text
  | None => False
  end.

(** The intent of a text, following the stated order: the first intent of
    quality, comparison, prediction, level that the text mentions, and help
    when it mentions none. *)
Inductive intentOf (text : string) : Intent -> Prop :=
| intentQuality :
    mentions text Quality -> intentOf text Quality
| intentComparison :
    ~ mentions text Quality -> mentions text Comparison ->
    intentOf text Comparison
| intentPrediction :
    ~ mentions text Quality -> ~ mentions text Comparison ->
    mentions text Prediction -> intentOf text Prediction
| intentLevel :
    ~ mentions text Quality -> ~ mentions text Comparison ->
    ~ mentions text Prediction -> mentions text Level ->
    intentOf text Level
| intentHelp :
    ~ mentions text Quality -> ~ mentions text Comparison ->
    ~ mentions text Prediction -> ~ mentions text Level ->
    intentOf text Help.

(** The message built for an intent. *)
Definition response (language : Language) (location : option LocationData)
    (tick : Tick) (i : Intent) : Message :=
  match i with
  | Quality => qualityResponse language location tick
  | Comparison => comparisonResponse language tick
  | Prediction => predictionResponse language tick
  | Level => levelResponse language location tick
  | Help => defaultResponse language tick
  end.

(** The pair of tests of one branch of [generateResponse]. *)
Definition tests (text : string) (i : Intent) : bool :=
  match keywords i with
  | Some (english, hindi) =>
      JS.includes (JS.toLowerCase text) english
      || JS.includes (JS.toLowerCase text) hindi
  | None => false
  end.

(** The processing flag is up exactly while one answer is owed, and no
    more than one answer is ever owed. *)
Definition oneReplyAtMost (w : World) : Prop :=
  (isProcessing (chat w) = false /\ replies w = [])
  \/ (isProcessing (chat w) = true /\ exists p, replies w = [p]).

(** A browser with both capabilities, on a secure page. *)
Definition browser : Platform :=
  {| hasSpeechRecognition := true; hasGeolocation := true;
     protocol := "https:"; hostname := "aqua.example" |}.

(** Both clock readings of a handler run falling on millisecond [ms]. *)
Definition atTime (ms : Z) : Tick := {| DateNow := ms; NewDate := ms |}.

(** Location is refused, a question is sent, and while its answer is owed
    a chip of the refusal notice is clicked. *)
Definition busy : World :=
  run browser
    [ PositionFailed (atTime 1700000001000);
      Change "Water quality in Delhi";
      ClickSend (atTime 1700000009000);
      ClickChip "Bangalore data" ].

(** The no-speech error of a recognition session and a click on send,
    handled within the same millisecond. *)
Definition sameMillisecond : list Event :=
  [ Change "level";
    ClickMic (atTime 1700000020000) (Normal tt);
    SpeechStart;
    SpeechError "no-speech" (atTime 1700000027500);
    ClickSend (atTime 1700000027500) ].

(** The greeting and the fallback, whatever their language and clock. *)
Definition isGreeting (m : Message) : Prop :=
  exists language tick, m = welcomeMessage language tick.

Definition isFallback (m : Message) : Prop :=
  exists language tick, m = deniedMessage language tick.

(** A message that is neither. *)
Definition plain (m : Message) : Prop := ~ isGreeting m /\ ~ isFallback m.

(** What one event can do to the store. *)
Inductive storeChange (old : list Message) : list Message -> Prop :=
| kept : storeChange old old
| pushed m : plain m -> storeChange old (old ++ [m])
| greeted language tick : storeChange old [welcomeMessage language tick]
| refused language tick : storeChange old [deniedMessage language tick].

(** The store never holds a greeting and a fallback together. *)
Definition notBoth (store : list Message) : Prop :=
  forall g f, In g store -> In f store -> isGreeting g -> isFallback f -> False.

Ltac tell_apart H :=
  first [ apply (f_equal isUser) in H; discriminate H
        | apply (f_equal showChart) in H; discriminate H
        | apply (f_equal showComparison) in H; discriminate H
        | apply (f_equal suggestions) in H; cbn in H; discriminate H ].

(** A browser without geolocation. *)
Definition noGeolocation : Platform :=
  {| hasSpeechRecognition := true; hasGeolocation := false;
     protocol := "https:"; hostname := "aqua.example" |}.

(** The [Date.now()] reading taken by the handler of an event, for the
    events whose handler builds a message. *)
Definition reading (e : Event) : option Z :=
  match e with
  | KeyPress _ _ tick | ClickSend tick | TimerFired tick | ClickMic tick _
  | SpeechError _ tick | PositionFound _ tick | PositionFailed tick =>
      Some (DateNow tick)
  | _ => None
  end.

Definition readings (events : list Event) : list Z :=
  flat_map (fun e => match reading e with Some t => [t] | None => [] end) events.

(** What an event whose handler reads the clock as [r] can do to the
    store: nothing, push a message stamped with the reading, or replace
    the store by such a message. *)
Inductive stamped (r : option Z) (old : list Message) : list Message -> Prop :=
| stampedKept : stamped r old old
| stampedPushed m t :
    r = Some t -> id m = JS.toString t -> stamped r old (old ++ [m])
| stampedAlone m t :
    r = Some t -> id m = JS.toString t -> stamped r old [m].

(** The ids of a store are distinct and each is a reading of the trace. *)
Definition idsFrom (times : list Z) (store : list Message) : Prop :=
  NoDup (map id store) /\
  Forall (fun m => exists t, In t times /\ id m = JS.toString t) store.

(** The strings of a list, one after the other. *)
Definition joined (parts : list string) : string :=
  fold_right String.append "" parts.

(** A string made of white space and line terminators only. *)
Definition blank (s : string) : Prop :=
  exists parts, Forall (fun t => In t JS.whiteSpace) parts /\ s = joined parts.

(** The loop continued from a given world. *)
Definition runFrom (platform : Platform) (w : World) (events : list Event) : World :=
  fold_left (fun w e => step platform e w) events w.

(** The location request and what the component knows of its outcome
    agree: while a callback is due the permission is pending, and afterwards
    it is granted exactly when a location is stored. *)
Definition locationSettled (w : World) : Prop :=
  match positionDue w with
  | Some _ =>
      locationPermission (chat w) = pending /\ userLocation (chat w) = None
  | None =>
      (locationPermission (chat w) = denied /\ userLocation (chat w) = None)
      \/ (locationPermission (chat w) = granted /\ userLocation (chat w) <> None)
  end.

(** The recognizer the first effect builds for a language. *)
Definition recognizerFor (language : Language) : Recognition :=
  {| continuous := false; interimResults := false;
     lang := ifHi language "hi-IN" "en-US"; callbackLanguage := language |}.

(** The recognizer held is the one for the language of the page, and there
    is one exactly when the platform has the capability. *)
Definition recognizerCurrent (platform : Platform) (w : World) : Prop :=
  recognitionRef (chat w) =
  if hasSpeechRecognition platform then Some (recognizerFor (pageLanguage w))
  else None.

(** Where a stored message can come from: the user, the dispatcher, the
    error callback of the recognizer, the two refusals of [startListening]
    that a click can reach, or one of the two location callbacks. *)
Inductive origin (m : Message) : Prop :=
| fromUser :
    isUser m = true -> data m = None -> showChart m = None ->
    showComparison m = None -> suggestions m = None -> origin m
| fromDispatcher language location tick i :
    m = response language location tick i -> origin m
| fromRecognition language tick error :
    m = notice tick (errorMessage language error) -> origin m
| fromInsecurePage language tick :
    m = notice tick (ifHi language "HTTPS कनेक्शन की आवश्यकता"
                                   "HTTPS connection required for voice") ->
    origin m
| fromFailedStart language tick :
    m = notice tick (ifHi language "वॉइस रिकॉग्निशन शुरू नहीं हो सका"
                                   "Could not start voice recognition") ->
    origin m
| fromGreeter language tick : m = welcomeMessage language tick -> origin m
| fromRefusal language tick : m = deniedMessage language tick -> origin m.

(** The notice [startListening] builds when there is no recognizer. *)
Definition unavailableNotice (m : Message) : Prop :=
  isUser m = false /\
  (text m = "Voice recognition not available"
   \/ text m = "वॉइस रिकॉग्निशन उपलब्ध नहीं है").

(** The intent of a text, computed as [generateResponse] tests it. *)
Definition classify (userMessage : string) : Intent :=
  if tests userMessage Quality then Quality
  else if tests userMessage Comparison then Comparison
  else if tests userMessage Prediction then Prediction
  else if tests userMessage Level then Level
  else Help.

(** The chips of a message, none when it has no [suggestions]. *)
Definition chipsOf (m : Message) : list string :=
  match suggestions m with Some chips => chips | None => [] end.

(** Reads the four facts about the bubble of a message that is no user
    message off its record. *)
Ltac bubble_shape :=
  cbn; split; [discriminate|];
  split; [reflexivity|];
  split; [first [intros _; reflexivity | discriminate]|];
  intros ? ?;
  repeat match goal with
         | I : _ \/ _ |- _ => destruct I as [I|I]
         | I : False |- _ => destruct I
         | I : ChipsPart _ = ChipsPart _ |- _ => injection I as <-; reflexivity
         | I : _ = ChipsPart _ |- _ => discriminate I
         end.

(** The place of an intent in the order of the tests. *)
Definition rank (i : Intent) : nat :=
  match i with
  | Quality => 0 | Comparison => 1 | Prediction => 2 | Level => 3 | Help => 4
  end.




(** * Properties *)

(** ** Substring tests *)

Lemma startsWith_occurs p s :
  JS.startsWith p s = true <-> exists after, s = p ++ after.
Proof.
  revert s; induction p as [|a p IH]; intros s; simpl.
  - split; [intros _; now exists s | reflexivity].
  - destruct s as [|b s].
    + split; [discriminate | intros [after H]; discriminate].
    + rewrite andb_true_iff, Ascii.eqb_eq, IH. split.
      * intros [-> [after ->]]. now exists after.
      * intros [after H]. injection H as -> ->. split; [reflexivity | now exists after].
Qed.

Lemma includes_occurs s sub : JS.includes s sub = true <-> occursIn sub s.
Proof.
  unfold occursIn. induction s as [|c s IH].
  - simpl. rewrite orb_false_r, startsWith_occurs. split.
    + intros [after H]. now exists "", after.
    + intros [[|b before] [after H]]; [now exists after | discriminate].
  - cbn [JS.includes]. rewrite orb_true_iff, startsWith_occurs, IH. split.
    + intros [[after H] | [before [after H]]].
      * now exists "", after.
      * exists (String c before), after. simpl. now rewrite H.
    + intros [[|b before] [after H]].
      * left. now exists after.
      * right. injection H as _ H. now exists before, after.
Qed.

Lemma toLowerCase_app s t :
  JS.toLowerCase (s ++ t) = JS.toLowerCase s ++ JS.toLowerCase t.
Proof. induction s as [|c s IH]; simpl; [reflexivity | now rewrite IH]. Qed.

Lemma toLowerCase_split a b s :
  JS.toLowerCase s = a ++ b ->
  exists s1 s2, s = s1 ++ s2 /\ JS.toLowerCase s1 = a /\ JS.toLowerCase s2 = b.
Proof.
  revert s; induction a as [|c a IH]; intros s H.
  - now exists "", s.
  - destruct s as [|d s]; [discriminate|].
    simpl in H. injection H as Hc H.
    destruct (IH _ H) as (s1 & s2 & -> & H1 & H2).
    exists (String d s1), s2. simpl. now rewrite Hc, H1.
Qed.

(** The test the dispatcher makes is the case-insensitive occurrence. *)
Lemma includes_lower text keyword :
  JS.includes (JS.toLowerCase text) keyword = true <->
  occursIgnoringCase keyword text.
Proof.
  rewrite includes_occurs. unfold occursIn, occursIgnoringCase. split.
  - intros (b & a & H).
    destruct (toLowerCase_split _ _ _ H) as (s1 & s23 & -> & _ & H23).
    destruct (toLowerCase_split _ _ _ H23) as (s2 & s3 & -> & H2 & _).
    now exists s1, s2, s3.
  - intros (b & m & a & -> & <-).
    exists (JS.toLowerCase b), (JS.toLowerCase a).
    now rewrite !toLowerCase_app.
Qed.

(** A keyword without capital letters that occurs as it is also occurs
    up to case. *)
Lemma occursIn_ignoringCase keyword text :
  JS.toLowerCase keyword = keyword ->
  occursIn keyword text -> occursIgnoringCase keyword text.
Proof. intros H (b & a & ->). now exists b, keyword, a. Qed.

(** ** Intents *)

Lemma tests_mentions text i : tests text i = true <-> mentions text i.
Proof.
  unfold tests, mentions. destruct (keywords i) as [[e h]|].
  - now rewrite orb_true_iff, !includes_lower.
  - split; [discriminate | contradiction].
Qed.

Lemma tests_not_mentions text i : tests text i = false <-> ~ mentions text i.
Proof. rewrite <- tests_mentions. now destruct (tests text i). Qed.

Lemma generateResponse_tests language location tick text :
  generateResponse language location tick text =
  if tests text Quality then response language location tick Quality
  else if tests text Comparison then response language location tick Comparison
  else if tests text Prediction then response language location tick Prediction
  else if tests text Level then response language location tick Level
  else response language location tick Help.
Proof. reflexivity. Qed.

(** [generateResponse] answers the intent of the text. *)
Lemma generateResponse_intent language location tick text i :
  intentOf text i ->
  generateResponse language location tick text = response language location tick i.
Proof.
  rewrite generateResponse_tests.
  intros H; destruct H;
    repeat match goal with
           | H : mentions _ _ |- _ => apply tests_mentions in H; rewrite H
           | H : ~ mentions _ _ |- _ => apply tests_not_mentions in H; rewrite H
           end; reflexivity.
Qed.

(** Every text has an intent. *)
Lemma intentOf_total text : exists i, intentOf text i.
Proof.
  destruct (tests text Quality) eqn:Q;
    [exists Quality; constructor; now apply tests_mentions|].
  destruct (tests text Comparison) eqn:C;
    [exists Comparison; constructor;
     (now apply tests_mentions) || (now apply tests_not_mentions)|].
  destruct (tests text Prediction) eqn:P;
    [exists Prediction; constructor;
     (now apply tests_mentions) || (now apply tests_not_mentions)|].
  destruct (tests text Level) eqn:L;
    [exists Level; constructor;
     (now apply tests_mentions) || (now apply tests_not_mentions)|].
  exists Help; constructor; now apply tests_not_mentions.
Qed.

(** No text has two intents. *)
Lemma intentOf_unique text i j : intentOf text i -> intentOf text j -> i = j.
Proof. intros Hi Hj; destruct Hi; destruct Hj; (reflexivity || contradiction). Qed.

(** ** The dispatcher *)

(** C3. [generateResponse] classifies by the first intent, in the order
    quality, comparison, prediction, level, help, that the text mentions up
    to letter case; in particular a text that mentions both quality and
    comparison gets the quality answer: chart flag true, comparison flag
    false. *)
Theorem generateResponse_first_match_wins language location tick userMessage :
  (forall i, intentOf userMessage i ->
     generateResponse language location tick userMessage
     = response language location tick i) /\
  (mentions userMessage Quality -> mentions userMessage Comparison ->
     generateResponse language location tick userMessage
     = qualityResponse language location tick /\
     chartFlag (generateResponse language location tick userMessage) = true /\
     comparisonFlag (generateResponse language location tick userMessage) = false).
Proof.
  split.
  - intros i. apply generateResponse_intent.
  - intros Q _.
    rewrite (generateResponse_intent language location tick userMessage Quality)
      by now constructor.
    repeat split.
Qed.

Lemma generateResponse_first_match_wins_witness :
  let text := "Compare the water QUALITY of Pune, मुंबई से तुलना" in
  generateResponse hi None {| DateNow := 1700000001000; NewDate := 1700000001000 |} text
  = qualityResponse hi None {| DateNow := 1700000001000; NewDate := 1700000001000 |}.
Proof.
  intros text.
  apply (generateResponse_first_match_wins hi None
           {| DateNow := 1700000001000; NewDate := 1700000001000 |} text).
  - apply tests_mentions. vm_compute. reflexivity.
  - apply tests_mentions. vm_compute. reflexivity.
Defined.

(** C4. The answer of each intent has the stated shape: quality shows the
    chart, not the comparison, and has no payload; comparison shows the
    comparison, not the chart; prediction shows the chart and its payload
    marks a prediction; level shows the chart; a text with no keyword gets
    the help message with no chart, no comparison and the default chips;
    every answer has exactly three chips, in the language asked for; and
    the three sample queries get the quality, comparison and prediction
    shapes. *)
Theorem generateResponse_shapes language location tick userMessage :
  let r := generateResponse language location tick userMessage in
  (intentOf userMessage Quality ->
     chartFlag r = true /\ comparisonFlag r = false /\ data r = None) /\
  (intentOf userMessage Comparison ->
     comparisonFlag r = true /\ chartFlag r = false) /\
  (intentOf userMessage Prediction ->
     chartFlag r = true /\ predictionMarker r = true) /\
  (intentOf userMessage Level -> chartFlag r = true) /\
  (intentOf userMessage Help ->
     text r = ifHi language
       "मैं आपकी मदद करने के लिए यहाँ हूँ। कृपया भूजल गुणवत्ता, तुलना या भविष्यवाणी के बारे में पूछें।"
       "I'm here to help you with groundwater information. Please ask about water quality, comparisons, or predictions." /\
     chartFlag r = false /\ comparisonFlag r = false /\ data r = None /\
     suggestions r = Some
       (ifHi language
          ["पानी की गुणवत्ता जांचें"; "शहरों की तुलना"; "भविष्य की रिपोर्ट"]
          ["Check water quality"; "Compare cities"; "Future reports"])) /\
  (exists a b c, suggestions r = Some [a; b; c]) /\
  (forall i, intentOf userMessage i ->
     suggestions r = suggestions (response language None tick i) /\
     suggestions (response en None tick i) <> suggestions (response hi None tick i)) /\
  (let q := generateResponse language location tick
              "Show groundwater quality in Delhi" in
   chartFlag q = true /\ comparisonFlag q = false /\ data q = None) /\
  (let c := generateResponse language location tick
              "Compare water levels between Mumbai and Pune" in
   comparisonFlag c = true /\ chartFlag c = false) /\
  (let p := generateResponse language location tick
              "Predict water levels for next 5 years in Bangalore" in
   chartFlag p = true /\ predictionMarker p = true).
Proof.
  intros r; subst r.
  repeat match goal with |- _ /\ _ => split end;
    try (intros H;
         rewrite (generateResponse_intent _ _ _ _ _ H);
         destruct language; repeat split; fail).
  - destruct (intentOf_total userMessage) as [i H].
    rewrite (generateResponse_intent _ _ _ _ _ H).
    destruct i; simpl; eauto.
  - intros i H. split.
    + rewrite (generateResponse_intent _ _ _ _ _ H).
      destruct i; reflexivity.
    + destruct i; simpl; discriminate.
  - repeat split.
  - repeat split.
  - repeat split.
Qed.

Lemma generateResponse_shapes_witness :
  chartFlag (generateResponse en None {| DateNow := 1700000002000; NewDate := 1700000002001 |}
               "What is the water LEVEL here?") = true.
Proof.
  destruct (generateResponse_shapes en None
              {| DateNow := 1700000002000; NewDate := 1700000002001 |}
              "What is the water LEVEL here?") as (_ & _ & _ & L & _).
  apply L.
  constructor;
    try (apply tests_not_mentions; vm_compute; reflexivity).
  apply tests_mentions. vm_compute. reflexivity.
Defined.

(** C10. The intent does not depend on the language: for every text,
    location and clock reading the answers under [en] and under [hi] are
    answers to one and the same intent, and they agree on every field but
    the text and the chips: id, author, timestamp, payload, chart flag and
    comparison flag. *)
Theorem generateResponse_language_independent location tick userMessage :
  let a := generateResponse en location tick userMessage in
  let b := generateResponse hi location tick userMessage in
  (exists i, a = response en location tick i /\ b = response hi location tick i) /\
  showChart a = showChart b /\
  showComparison a = showComparison b /\
  data a = data b /\
  chartFlag a = chartFlag b /\
  comparisonFlag a = comparisonFlag b /\
  predictionMarker a = predictionMarker b /\
  id a = id b /\ isUser a = isUser b /\ timestamp a = timestamp b.
Proof.
  intros a b; subst a b.
  destruct (intentOf_total userMessage) as [i H].
  rewrite !(generateResponse_intent _ _ _ _ _ H).
  split; [now exists i|].
  destruct i; repeat split.
Qed.

(** ** Submitting *)

Lemma truthy_nonempty v : v <> "" -> JS.truthy v = true.
Proof. destruct v; [contradiction | reflexivity]. Qed.

(** C1. When the trimmed input is not empty, [handleSendMessage] appends
    one user message carrying the input at once and is suspended on
    [generateResponse]; when the timer has fired it appends the one answer
    to whatever the store holds by then.  Run back to back the store is
    the old store followed by the user message and then the answer. *)
Theorem handleSendMessage_appends language tick tick' s :
  JS.trim (inputValue s) <> "" ->
  exists user p,
    let answer := generateResponse language (userLocation s) tick' (inputValue s) in
    handleSendMessage language tick s =
      (setIsProcessing true (setInputValue "" (pushMessage user s)), Some p) /\
    messages (fst (handleSendMessage language tick s)) = (messages s ++ [user])%list /\
    isUser user = true /\ text user = inputValue s /\
    isUser answer = false /\
    (forall later, messages (resume p tick' later) = (messages later ++ [answer])%list) /\
    messages (resume p tick' (fst (handleSendMessage language tick s)))
      = (messages s ++ [user; answer])%list.
Proof.
  intros H. unfold handleSendMessage.
  rewrite (truthy_nonempty _ H). cbn [negb].
  eexists. eexists. cbv zeta.
  split; [reflexivity|]. cbn [fst].
  split; [reflexivity|].
  split; [reflexivity|].
  split; [reflexivity|].
  split.
  { destruct (intentOf_total (inputValue s)) as [i Hi].
    rewrite (generateResponse_intent _ _ _ _ _ Hi). now destruct i. }
  split; [reflexivity|].
  cbn. now rewrite <- app_assoc.
Qed.

Lemma handleSendMessage_appends_witness :
  let s := setInputValue "  water level in Pune " initialState in
  exists user p,
    handleSendMessage en {| DateNow := 1700000003000; NewDate := 1700000003000 |} s =
      (setIsProcessing true (setInputValue "" (pushMessage user s)), Some p).
Proof.
  intros s.
  destruct (handleSendMessage_appends en
              {| DateNow := 1700000003000; NewDate := 1700000003000 |}
              {| DateNow := 1700000004000; NewDate := 1700000004000 |} s)
    as (user & p & H & _).
  - vm_compute. discriminate.
  - exists user, p. exact H.
Defined.

(** [handleSendMessage] rejects a blank input. *)
Lemma handleSendMessage_blank language tick s :
  JS.trim (inputValue s) = "" -> handleSendMessage language tick s = (s, None).
Proof. intros H. unfold handleSendMessage. now rewrite H. Qed.

(** ** Speech input *)

(** C6. Whatever the listening flag was, after [onerror] it is false and
    one assistant message has been appended, whose text is the permission
    notice for [not-allowed], the nothing-heard notice for [no-speech] and
    the generic notice for any other error, in the captured language. *)
Theorem onerror_resets_listening language tick error s :
  let s' := onerror language tick error s in
  isListening s' = false /\
  exists m,
    messages s' = (messages s ++ [m])%list /\
    isUser m = false /\
    (error = "not-allowed" ->
       text m = ifHi language "माइक्रोफोन की अनुमति दें" "Please allow microphone access") /\
    (error = "no-speech" ->
       text m = ifHi language "कोई आवाज नहीं सुनी गई" "No speech detected") /\
    (error <> "not-allowed" -> error <> "no-speech" ->
       text m = ifHi language "वॉइस रिकॉग्निशन में समस्या" "Voice recognition error").
Proof.
  cbv zeta. split; [reflexivity|].
  exists (notice tick (errorMessage language error)).
  split; [reflexivity|]. split; [reflexivity|].
  cbn [text notice]. unfold errorMessage.
  repeat split.
  - now intros ->.
  - now intros ->.
  - intros H1 H2.
    apply String.eqb_neq in H1, H2. now rewrite H1, H2.
Qed.

Lemma onerror_resets_listening_witness :
  let s := onerror hi {| DateNow := 1700000005000; NewDate := 1700000005000 |}
             "no-speech" (setIsListening true initialState) in
  isListening s = false /\ map text (messages s) = ["कोई आवाज नहीं सुनी गई"].
Proof.
  destruct (onerror_resets_listening hi
              {| DateNow := 1700000005000; NewDate := 1700000005000 |}
              "no-speech" (setIsListening true initialState))
    as (L & m & M & _ & _ & T & _).
  cbv zeta. split; [exact L|].
  rewrite M. cbn. now rewrite (T eq_refl).
Defined.

(** C7. [startListening] always completes normally.  Without a recognizer
    it appends the not-available notice and starts nothing; with one, on a
    page that is neither served over https nor on localhost, it appends
    the secure-connection notice and starts nothing; otherwise it calls
    [start], and if that throws, the listening flag is set to false, the
    generic notice is appended and nothing is started. *)
Theorem startListening_never_throws language tick protocol hostname start s :
  exists s' started,
    startListening language tick protocol hostname start s = Normal (s', started) /\
    (recognitionRef s = None ->
       s' = pushMessage (notice tick
              (ifHi language "वॉइस रिकॉग्निशन उपलब्ध नहीं है"
                             "Voice recognition not available")) s /\
       started = false) /\
    (recognitionRef s <> None ->
     protocol <> "https:" -> hostname <> "localhost" ->
       s' = pushMessage (notice tick
              (ifHi language "HTTPS कनेक्शन की आवश्यकता"
                             "HTTPS connection required for voice")) s /\
       started = false) /\
    (recognitionRef s <> None ->
     protocol = "https:" \/ hostname = "localhost" ->
       (forall error, start = Throw error ->
          isListening s' = false /\
          messages s' = (messages s ++
            [notice tick (ifHi language "वॉइस रिकॉग्निशन शुरू नहीं हो सका"
                                        "Could not start voice recognition")])%list /\
          started = false) /\
       (forall u, start = Normal u -> s' = s /\ started = true)).
Proof.
  unfold startListening.
  destruct (recognitionRef s) as [r|] eqn:R.
  - destruct (String.eqb_spec protocol "https:") as [P|P];
      destruct (String.eqb_spec hostname "localhost") as [Hn|Hn]; cbn [negb andb].
    4: { eexists; eexists. split; [reflexivity|].
         split; [discriminate|].
         split; [intros _ _ _; split; reflexivity|].
         intros _ [HP | HH]; contradiction. }
    all: destruct start as [[]|e]; cbn [tryCatch andThen];
      eexists; eexists; (split; [reflexivity|]);
      (split; [discriminate|]);
      (split; [intros _ HP HH; contradiction|]);
      intros _ _; split; intros x E;
      first [discriminate E | repeat split].
  - eexists; eexists. split; [reflexivity|].
    split; [intros _; split; reflexivity|].
    split; intros C; exfalso; now apply C.
Qed.

Lemma startListening_never_throws_witness :
  let s := initRecognition true en initialState in
  exists s',
    startListening en {| DateNow := 1700000006000; NewDate := 1700000006000 |}
      "http:" "example.org" (Throw "InvalidStateError") s = Normal (s', false) /\
    map text (messages s') = ["HTTPS connection required for voice"].
Proof.
  intros s.
  destruct (startListening_never_throws en
              {| DateNow := 1700000006000; NewDate := 1700000006000 |}
              "http:" "example.org" (Throw "InvalidStateError") s)
    as (s' & started & E & _ & H & _).
  destruct H as [-> ->]; [discriminate | discriminate | discriminate |].
  exists (pushMessage (notice {| DateNow := 1700000006000; NewDate := 1700000006000 |}
                         "HTTPS connection required for voice") s).
  split; [exact E | reflexivity].
Defined.

(** ** The event loop *)

Lemma run_snoc platform events e :
  run platform (events ++ [e]) = step platform e (run platform events).
Proof. unfold run. now rewrite fold_left_app. Qed.

(** Induction over the reachable worlds. *)
Lemma reachable_ind platform (P : World -> Prop) :
  P (mount platform) ->
  (forall e w, reachable platform w -> P w -> P (step platform e w)) ->
  forall w, reachable platform w -> P w.
Proof.
  intros Hmount Hstep w [events <-].
  induction events as [|e events IH] using rev_ind.
  - exact Hmount.
  - rewrite run_snoc. apply Hstep; [now exists events | exact IH].
Qed.

Lemma mount_messages platform : messages (chat (mount platform)) = [].
Proof.
  unfold mount, requestLocationPermission, initRecognition.
  now destruct (hasGeolocation platform), (hasSpeechRecognition platform).
Qed.

Lemma initRecognition_frame b language s :
  messages (initRecognition b language s) = messages s /\
  inputValue (initRecognition b language s) = inputValue s /\
  isProcessing (initRecognition b language s) = isProcessing s /\
  isListening (initRecognition b language s) = isListening s /\
  userLocation (initRecognition b language s) = userLocation s.
Proof. unfold initRecognition. now destruct b. Qed.

Lemma submit_oneReplyAtMost tick w :
  isProcessing (chat w) = false -> oneReplyAtMost w ->
  oneReplyAtMost (submit tick w).
Proof.
  intros F [[_ R] | [T _]]; [|congruence].
  unfold submit, handleSendMessage.
  destruct (negb (JS.truthy (JS.trim (inputValue (chat w))))).
  - left. cbn. rewrite R. now split.
  - right. cbn. rewrite R. split; [reflexivity | eexists; reflexivity].
Qed.

Lemma startListening_isProcessing language tick protocol hostname start s s' b :
  startListening language tick protocol hostname start s = Normal (s', b) ->
  isProcessing s' = isProcessing s.
Proof.
  unfold startListening.
  destruct (recognitionRef s); [|intros [= <- _]; reflexivity].
  destruct (negb _ && negb _); [intros [= <- _]; reflexivity|].
  destruct start as [u|e]; intros [= <- _]; reflexivity.
Qed.

Lemma step_oneReplyAtMost platform e w :
  oneReplyAtMost w -> oneReplyAtMost (step platform e w).
Proof.
  intros I. destruct e; cbn [step].
  - destruct (inputDisabled (chat w)); [exact I|]. exact I.
  - unfold inputDisabled, handleKeyPress.
    destruct (isProcessing (chat w)) eqn:P;
      [now rewrite orb_true_r|].
    destruct (isListening (chat w)); cbn [orb]; [exact I|].
    destruct (_ && _); [now apply submit_oneReplyAtMost | exact I].
  - unfold sendDisabled.
    destruct (isProcessing (chat w)) eqn:P;
      [now rewrite orb_true_r|].
    rewrite orb_false_r.
    destruct (negb _); [exact I | now apply submit_oneReplyAtMost].
  - destruct I as [[F R] | [T [p R]]]; rewrite R; [now left|].
    left. now split.
  - destruct (micDisabled (chat w)); [exact I|].
    destruct (startListening _ _ _ _ _ _) as [[s' b]|err] eqn:E; [|exact I].
    apply startListening_isProcessing in E.
    unfold oneReplyAtMost in *. cbn. now rewrite E.
  - destruct (session w); exact I.
  - destruct (session w); exact I.
  - destruct (session w); exact I.
  - destruct (session w); exact I.
  - destruct (positionDue w); exact I.
  - destruct (positionDue w); exact I.
  - unfold oneReplyAtMost in *. cbn.
    now rewrite (proj1 (proj2 (proj2 (initRecognition_frame _ _ _)))).
  - destruct (existsb _ _); exact I.
Qed.

Lemma mount_oneReplyAtMost platform : oneReplyAtMost (mount platform).
Proof.
  left. unfold mount, requestLocationPermission, initRecognition.
  destruct (hasGeolocation platform), (hasSpeechRecognition platform); now split.
Qed.

(** C2, as stated, fails: [handleSendMessage] does not look at the
    processing flag.  In the reachable state [busy] the flag is up and the
    input holds a chip's text; a call there appends a user message and is
    suspended on a second answer. *)
Lemma handleSendMessage_while_processing :
  isProcessing (chat busy) = true /\
  handleSendMessage en (atTime 1700000009500) (chat busy) <> (chat busy, None) /\
  List.length (messages (fst (handleSendMessage en (atTime 1700000009500) (chat busy))))
    = S (List.length (messages (chat busy))) /\
  snd (handleSendMessage en (atTime 1700000009500) (chat busy)) <> None.
Proof.
  split; [reflexivity|].
  split; [|split; [reflexivity | vm_compute; discriminate]].
  intros H. apply (f_equal snd) in H. vm_compute in H. discriminate.
Qed.

(** C2, amended.  While an answer is owed the send button and the input
    field are disabled: a click on send and a key press in the input leave
    the whole world as it is, so the store keeps its length and no second
    answer becomes owed; in a reachable world exactly one answer is owed
    then. *)
Theorem send_disabled_while_processing platform w tick key shiftKey :
  isProcessing (chat w) = true ->
  step platform (ClickSend tick) w = w /\
  step platform (KeyPress key shiftKey tick) w = w /\
  (reachable platform w -> exists p, replies w = [p]).
Proof.
  intros P. cbn [step]. unfold sendDisabled, inputDisabled.
  rewrite P, !orb_true_r. repeat split.
  intros R.
  assert (I : oneReplyAtMost w).
  { apply (reachable_ind platform oneReplyAtMost); [| |exact R].
    - apply mount_oneReplyAtMost.
    - intros e w0 _. apply step_oneReplyAtMost. }
  destruct I as [[F _] | [_ H]]; [congruence | exact H].
Qed.

Lemma send_disabled_while_processing_witness :
  step browser (ClickSend (atTime 1700000009500)) busy = busy /\
  List.length (replies busy) = 1.
Proof.
  destruct (send_disabled_while_processing browser busy
              (atTime 1700000009500) "Enter" false eq_refl) as (C & _ & R).
  split; [exact C|].
  destruct R as [p ->]; [|reflexivity].
  now exists [ PositionFailed (atTime 1700000001000);
               Change "Water quality in Delhi";
               ClickSend (atTime 1700000009000);
               ClickChip "Bangalore data" ].
Defined.

(** C8 does not hold of the code: an id is the clock reading of the
    millisecond in which the message is built, and two handlers that run
    within one millisecond give their messages the same id. *)
Theorem ids_collide_within_a_millisecond :
  map id (messages (chat (run browser sameMillisecond)))
    = ["1700000027500"; "1700000027500"] /\
  map isUser (messages (chat (run browser sameMillisecond))) = [false; true] /\
  ~ NoDup (map id (messages (chat (run browser sameMillisecond)))).
Proof.
  split; [reflexivity|]. split; [reflexivity|].
  intros H. vm_compute in H.
  inversion H as [|x l N _]. apply N. now left.
Qed.

(** The decimal digits of an integer determine it. *)
Lemma toString_inj a b : JS.toString a = JS.toString b -> a = b.
Proof.
  unfold JS.toString. intros H.
  apply (f_equal NilZero.int_of_string) in H.
  assert (N : forall z, Z.to_int z <> Decimal.Pos Decimal.Nil
                        /\ Z.to_int z <> Decimal.Neg Decimal.Nil).
  { intros [|q|q]; cbn; split; try discriminate;
      intros [= E]; revert E; apply DecimalPos.Unsigned.to_uint_nonnil. }
  rewrite !NilZero.isi in H by apply N.
  injection H as H. now apply DecimalZ.to_int_inj.
Qed.

Lemma generateResponse_id language location tick userMessage :
  id (generateResponse language location tick userMessage)
  = JS.toString (DateNow tick).
Proof.
  destruct (intentOf_total userMessage) as [i H].
  rewrite (generateResponse_intent _ _ _ _ _ H). now destruct i.
Qed.

Lemma submit_stamped tick w :
  stamped (Some (DateNow tick)) (messages (chat w))
    (messages (chat (submit tick w))).
Proof.
  unfold submit, handleSendMessage.
  destruct (negb _); cbn; [constructor|].
  now apply stampedPushed with (t := DateNow tick).
Qed.

Lemma startListening_stamped language tick protocol hostname start s s' b :
  startListening language tick protocol hostname start s = Normal (s', b) ->
  stamped (Some (DateNow tick)) (messages s) (messages s').
Proof.
  unfold startListening.
  destruct (recognitionRef s);
    [|intros [= <- _]; now apply stampedPushed with (t := DateNow tick)].
  destruct (negb _ && negb _);
    [intros [= <- _]; now apply stampedPushed with (t := DateNow tick)|].
  destruct start as [u|e]; intros [= <- _];
    [constructor | now apply stampedPushed with (t := DateNow tick)].
Qed.

Lemma step_stamped platform e w :
  stamped (reading e) (messages (chat w)) (messages (chat (step platform e w))).
Proof.
  destruct e; cbn [step reading].
  - destruct (inputDisabled (chat w)); constructor.
  - destruct (inputDisabled (chat w)); [constructor|].
    unfold handleKeyPress.
    destruct (_ && _); [apply submit_stamped | constructor].
  - destruct (sendDisabled (chat w)); [constructor | apply submit_stamped].
  - destruct (replies w); [constructor|].
    apply stampedPushed with (t := DateNow tick);
      [reflexivity | apply generateResponse_id].
  - destruct (micDisabled (chat w)); [constructor|].
    destruct (startListening _ _ _ _ _ _) as [[s' b]|err] eqn:E; [|constructor].
    apply (startListening_stamped _ _ _ _ _ _ _ _ E).
  - destruct (session w); constructor.
  - destruct (session w); constructor.
  - destruct (session w); [|constructor].
    now apply stampedPushed with (t := DateNow tick).
  - destruct (session w); constructor.
  - destruct (positionDue w); [|constructor].
    now apply stampedAlone with (t := DateNow tick).
  - destruct (positionDue w); [|constructor].
    now apply stampedAlone with (t := DateNow tick).
  - cbn. rewrite (proj1 (initRecognition_frame _ _ _)). constructor.
  - destruct (existsb _ _); constructor.
Qed.

Lemma readings_snoc events e :
  readings (events ++ [e])
  = (readings events ++ match reading e with Some t => [t] | None => [] end)%list.
Proof. unfold readings. rewrite flat_map_app. cbn. now rewrite app_nil_r. Qed.

Lemma idsFrom_weaken times times' store :
  incl times times' -> idsFrom times store -> idsFrom times' store.
Proof.
  intros I [N F]. split; [exact N|].
  eapply Forall_impl; [|exact F].
  intros m (t & T & E). exists t. split; [now apply I | exact E].
Qed.

(** X16. The collisions come from the clock alone: along a trace whose
    handlers read pairwise distinct milliseconds, the ids of the store are
    pairwise distinct, and each is the reading of one of the handlers. *)
Lemma ids_distinct_when_readings_distinct platform events :
  NoDup (readings events) ->
  idsFrom (readings events) (messages (chat (run platform events))).
Proof.
  induction events as [|e events IH] using rev_ind; intros D.
  - unfold run. cbn [fold_left]. rewrite mount_messages.
    split; constructor.
  - rewrite readings_snoc in D |- *. rewrite run_snoc.
    specialize (IH (NoDup_app_remove_r _ _ D)).
    destruct (step_stamped platform e (run platform events)) as [|m t R E|m t R E].
    + eapply idsFrom_weaken; [|exact IH]. now apply incl_appl.
    + rewrite R in D |- *. destruct IH as [N F]. split.
      * rewrite map_app. cbn [map].
        apply NoDup_remove_2 in D. rewrite app_nil_r in D.
        apply NoDup_app; [exact N | repeat constructor; intros [] |].
        intros x Hx [<-|[]]. apply D.
        apply in_map_iff in Hx as (m' & Hm' & Im').
        rewrite Forall_forall in F.
        destruct (F m' Im') as (t' & T' & E').
        rewrite <- Hm', E' in E. apply toString_inj in E. now subst.
      * apply Forall_app. split.
        -- eapply Forall_impl; [|exact F].
           intros m' (t' & T' & E'). exists t'.
           split; [apply in_or_app; now left | exact E'].
        -- repeat constructor. exists t.
           split; [apply in_or_app; right; now left | exact E].
    + rewrite R. split.
      * cbn. repeat constructor. intros [].
      * repeat constructor. exists t.
        split; [apply in_or_app; right; now left | exact E].
Qed.

(** A click on the enabled send button with no answer owed, then the
    timer: the store gains the user message and its answer, built with the
    language and the location of the moment of the click. *)
Lemma send_then_answer platform w tick tick' :
  sendDisabled (chat w) = false -> replies w = [] ->
  exists user,
    isUser user = true /\ text user = inputValue (chat w) /\
    messages (chat (step platform (TimerFired tick')
                      (step platform (ClickSend tick) w)))
    = (messages (chat w) ++
       [user;
        generateResponse (pageLanguage w) (userLocation (chat w))
          tick' (inputValue (chat w))])%list.
Proof.
  intros D R. cbn [step]. rewrite D.
  unfold submit, handleSendMessage.
  unfold sendDisabled in D. apply orb_false_elim in D as [D _].
  rewrite D. cbn. rewrite R. cbn.
  eexists. split; [|split; [|now rewrite <- app_assoc]]; reflexivity.
Qed.

(** ** Geolocation *)

Lemma user_plain m : isUser m = true -> plain m.
Proof.
  intros U; split; intros (l & t & ->); discriminate U.
Qed.

Lemma notice_plain tick body : plain (notice tick body).
Proof. split; intros (l & t & H); tell_apart H. Qed.

Lemma response_plain language location tick i :
  plain (response language location tick i).
Proof.
  split; intros (l & t & H); destruct i, language, l; tell_apart H.
Qed.

Lemma generateResponse_plain language location tick userMessage :
  plain (generateResponse language location tick userMessage).
Proof.
  destruct (intentOf_total userMessage) as [i H].
  rewrite (generateResponse_intent _ _ _ _ _ H). apply response_plain.
Qed.

Lemma greeting_not_fallback m : isGreeting m -> isFallback m -> False.
Proof.
  intros (l & t & ->) (l' & t' & H). destruct l, l'; tell_apart H.
Qed.

Lemma submit_storeChange tick w :
  storeChange (messages (chat w)) (messages (chat (submit tick w))).
Proof.
  unfold submit, handleSendMessage.
  destruct (negb _); cbn; [constructor|].
  apply pushed. now apply user_plain.
Qed.

Lemma startListening_storeChange language tick protocol hostname start s s' b :
  startListening language tick protocol hostname start s = Normal (s', b) ->
  storeChange (messages s) (messages s').
Proof.
  unfold startListening.
  destruct (recognitionRef s);
    [|intros [= <- _]; apply pushed, notice_plain].
  destruct (negb _ && negb _);
    [intros [= <- _]; apply pushed, notice_plain|].
  destruct start as [u|e]; intros [= <- _];
    [constructor | apply pushed, notice_plain].
Qed.

Lemma step_storeChange platform e w :
  storeChange (messages (chat w)) (messages (chat (step platform e w))).
Proof.
  destruct e; cbn [step].
  - destruct (inputDisabled (chat w)); constructor.
  - destruct (inputDisabled (chat w)); [constructor|].
    unfold handleKeyPress.
    destruct (_ && _); [apply submit_storeChange | constructor].
  - destruct (sendDisabled (chat w)); [constructor | apply submit_storeChange].
  - destruct (replies w); [constructor|].
    apply pushed, generateResponse_plain.
  - destruct (micDisabled (chat w)); [constructor|].
    destruct (startListening _ _ _ _ _ _) as [[s' b]|err] eqn:E; [|constructor].
    apply (startListening_storeChange _ _ _ _ _ _ _ _ E).
  - destruct (session w); constructor.
  - destruct (session w); constructor.
  - destruct (session w); [|constructor].
    apply pushed, notice_plain.
  - destruct (session w); constructor.
  - destruct (positionDue w); [apply greeted | constructor].
  - destruct (positionDue w); [apply refused | constructor].
  - cbn. rewrite (proj1 (initRecognition_frame _ _ _)). constructor.
  - destruct (existsb _ _); constructor.
Qed.

Lemma storeChange_notBoth old new :
  storeChange old new -> notBoth old -> notBoth new.
Proof.
  intros C I; destruct C as [|m [NG NF]|l t|l t]; [exact I| | |].
  - intros g f Hg Hf G F.
    apply in_app_or in Hg, Hf.
    destruct Hg as [Hg|[<-|[]]]; [|contradiction].
    destruct Hf as [Hf|[<-|[]]]; [|contradiction].
    exact (I g f Hg Hf G F).
  - intros g f _ [<-|[]] G F.
    apply (greeting_not_fallback (welcomeMessage l t)); [now exists l, t | exact F].
  - intros g f [<-|[]] _ G F.
    apply (greeting_not_fallback (deniedMessage l t)); [exact G | now exists l, t].
Qed.

Lemma reachable_notBoth platform w :
  reachable platform w -> notBoth (messages (chat w)).
Proof.
  apply (reachable_ind platform (fun w => notBoth (messages (chat w)))).
  - rewrite mount_messages. intros g f [].
  - intros e w0 _. apply storeChange_notBoth, step_storeChange.
Qed.

(** C5, as stated, fails without the capability: [requestLocationPermission]
    sets the permission to denied and returns; the store stays empty and no
    callback is due that could fill it. *)
Lemma no_geolocation_no_fallback :
  locationPermission (chat (mount noGeolocation)) = denied /\
  messages (chat (mount noGeolocation)) = [] /\
  positionDue (mount noGeolocation) = None /\
  step noGeolocation (PositionFailed (atTime 1700000040000)) (mount noGeolocation)
    = mount noGeolocation.
Proof. repeat split. Qed.

(** C5, amended.  On success the greeter stores the coordinates, sets the
    permission to granted and makes the store hold the greeting alone, with
    three chips; on failure it sets the permission to denied and makes the
    store hold the fallback alone, with three chips none of which is a chip
    of a greeting; either callback settles the request, so the other does
    not run after it; in no reachable world does the store hold both a
    greeting and a fallback.  Without the capability the permission is set
    to denied, the store is left as it is and no callback is due. *)
Theorem geolocation_outcomes language tick position s :
  (let s' := onPosition language tick position s in
   userLocation s' = Some {| latitude := coords_latitude position;
                             longitude := coords_longitude position;
                             city := None; state := None |} /\
   locationPermission s' = granted /\
   messages s' = [welcomeMessage language tick] /\
   exists a b c, suggestions (welcomeMessage language tick) = Some [a; b; c]) /\
  (let s' := onPositionError language tick s in
   locationPermission s' = denied /\
   messages s' = [deniedMessage language tick] /\
   exists a b c,
     suggestions (deniedMessage language tick) = Some [a; b; c] /\
     forall language' tick' chips,
       suggestions (welcomeMessage language' tick') = Some chips ->
       ~ In a chips /\ ~ In b chips /\ ~ In c chips) /\
  (forall platform w,
     positionDue (step platform (PositionFound position tick) w) = None /\
     positionDue (step platform (PositionFailed tick) w) = None) /\
  (forall platform w,
     reachable platform w ->
     forall g f, In g (messages (chat w)) -> In f (messages (chat w)) ->
                 isGreeting g -> isFallback f -> False) /\
  (let (s', due) := requestLocationPermission false s in
   locationPermission s' = denied /\ messages s' = messages s /\ due = false).
Proof.
  split; [|split; [|split; [|split]]].
  - cbv zeta. repeat split. destruct language; cbn; eauto.
  - cbv zeta. split; [reflexivity|]. split; [reflexivity|].
    do 3 eexists. split; [reflexivity|].
    intros l t chips [= <-].
    destruct language, l; cbn; repeat split;
      intros [H|[H|[H|[]]]]; discriminate H.
  - intros platform w. cbn [step].
    split; destruct (positionDue w) eqn:D; (reflexivity || exact D).
  - intros platform w R. exact (reachable_notBoth platform w R).
  - cbn. repeat split.
Qed.

Lemma geolocation_outcomes_witness :
  messages (onPosition hi (atTime 1700000050000)
              {| coords_latitude := 28.5; coords_longitude := 77.25 |} (chat busy))
    = [welcomeMessage hi (atTime 1700000050000)] /\
  ~ (In (welcomeMessage en (atTime 1700000001000)) (messages (chat busy)) /\
     In (deniedMessage en (atTime 1700000001000)) (messages (chat busy))).
Proof.
  destruct (geolocation_outcomes hi (atTime 1700000050000)
              {| coords_latitude := 28.5; coords_longitude := 77.25 |} (chat busy))
    as ((_ & _ & M & _) & _ & _ & H & _).
  split; [exact M|].
  intros [G F].
  apply (H browser busy) with (g := welcomeMessage en (atTime 1700000001000))
                              (f := deniedMessage en (atTime 1700000001000)).
  - now exists [ PositionFailed (atTime 1700000001000);
                 Change "Water quality in Delhi";
                 ClickSend (atTime 1700000009000);
                 ClickChip "Bangalore data" ].
  - exact G.
  - exact F.
  - now exists en, (atTime 1700000001000).
  - now exists en, (atTime 1700000001000).
Defined.

(** ** White space *)

Lemma append_nil_r s : s ++ "" = s.
Proof. induction s as [|c s IH]; simpl; [reflexivity | now rewrite IH]. Qed.

Lemma append_assoc a b c : (a ++ b) ++ c = a ++ (b ++ c).
Proof. induction a as [|x a IH]; simpl; [reflexivity | now rewrite IH]. Qed.

Lemma length_append a b : String.length (a ++ b) = String.length a + String.length b.
Proof. induction a as [|x a IH]; simpl; [reflexivity | now rewrite IH]. Qed.

Lemma joined_app l l' : joined (l ++ l') = joined l ++ joined l'.
Proof.
  induction l as [|t l IH]; simpl; [reflexivity|].
  now rewrite IH, append_assoc.
Qed.

Lemma revOnto_append s acc : JS.revOnto s acc = JS.reverse s ++ acc.
Proof.
  unfold JS.reverse. revert acc.
  induction s as [|c s IH]; intros acc; simpl; [reflexivity|].
  rewrite (IH (String c "")), IH, append_assoc. reflexivity.
Qed.

Lemma reverse_append a b : JS.reverse (a ++ b) = JS.reverse b ++ JS.reverse a.
Proof.
  induction a as [|c a IH].
  - simpl. now rewrite append_nil_r.
  - unfold JS.reverse in *. simpl.
    rewrite (revOnto_append (a ++ b)), (revOnto_append a).
    fold (JS.reverse (a ++ b)). unfold JS.reverse at 1. rewrite IH.
    now rewrite append_assoc.
Qed.

Lemma reverse_involutive s : JS.reverse (JS.reverse s) = s.
Proof.
  induction s as [|c s IH]; [reflexivity|].
  change (String c s) with (String c "" ++ s) at 1.
  rewrite reverse_append, reverse_append, IH. reflexivity.
Qed.

Lemma reverse_joined l :
  JS.reverse (joined l) = joined (rev (map JS.reverse l)).
Proof.
  induction l as [|t l IH]; [reflexivity|].
  simpl. rewrite reverse_append, IH, joined_app. simpl.
  now rewrite append_nil_r.
Qed.

(** A token found by [tokenAt] is a token of the list that the string
    starts with. *)
Lemma tokenAt_found toks s k :
  JS.tokenAt toks s = S k ->
  exists t rest, In t toks /\ s = t ++ rest /\ String.length t = S k.
Proof.
  induction toks as [|t toks IH]; simpl; [discriminate|].
  destruct (JS.startsWith t s) eqn:E.
  - intros L. apply startsWith_occurs in E as [rest ->].
    exists t, rest. auto.
  - intros H. destruct (IH H) as (t' & rest & I & -> & L).
    exists t', rest. auto.
Qed.

(** What [dropTokens] drops after the bytes it was told to skip is a run
    of tokens. *)
Lemma dropTokens_drops toks s :
  forall k pre rest,
    s = pre ++ rest -> String.length pre = k ->
    exists parts,
      Forall (fun t => In t toks) parts /\
      rest = joined parts ++ JS.dropTokens toks k s.
Proof.
  induction s as [|c s IH]; intros k pre rest E L.
  - destruct pre; [|discriminate]. simpl in E. subst rest.
    exists []. split; [constructor | reflexivity].
  - destruct k as [|k].
    + destruct pre; [|discriminate]. simpl in E. subst rest.
      cbn [JS.dropTokens].
      destruct (JS.tokenAt toks (String c s)) as [|j] eqn:T.
      * exists []. split; [constructor | reflexivity].
      * destruct (tokenAt_found _ _ _ T) as (t & rest & I & E & Lt).
        destruct t as [|c' t]; [discriminate|].
        simpl in E. injection E as <- ->. simpl in Lt.
        injection Lt as Lt.
        destruct (IH j t rest eq_refl Lt) as (parts & F & R).
        exists (String c t :: parts). split; [now constructor|].
        simpl. rewrite append_assoc. now rewrite <- R.
    + destruct pre as [|c' pre]; [discriminate|].
      simpl in E, L. injection E as <- ->. injection L as L.
      cbn [JS.dropTokens]. apply (IH k pre rest eq_refl L).
Qed.

(** A white-space token in front is dropped. *)
Lemma dropTokens_whiteSpace t rest :
  In t JS.whiteSpace ->
  JS.dropTokens JS.whiteSpace 0 (t ++ rest) = JS.dropTokens JS.whiteSpace 0 rest.
Proof.
  intros I. unfold JS.whiteSpace in I. cbn [map JS.bytes] in I.
  repeat (destruct I as [<-|I]; [reflexivity|]).
  destruct I.
Qed.

Lemma trimStart_blank s : blank s -> JS.trimStart s = "".
Proof.
  intros (parts & F & ->). unfold JS.trimStart.
  induction F as [|t parts I F IH]; [reflexivity|].
  simpl. now rewrite dropTokens_whiteSpace.
Qed.

Lemma reverse_empty s : JS.reverse s = "" -> s = "".
Proof.
  intros H. apply (f_equal JS.reverse) in H.
  now rewrite reverse_involutive in H.
Qed.

(** [trim] gives the empty string exactly on the blank strings. *)
Lemma trim_empty_iff s : JS.trim s = "" <-> blank s.
Proof.
  split.
  - unfold JS.trim, JS.trimEnd. intros H.
    apply reverse_empty in H.
    destruct (dropTokens_drops (map JS.reverse JS.whiteSpace)
                (JS.reverse (JS.trimStart s)) 0 "" _ eq_refl eq_refl)
      as (back & FB & EB).
    rewrite H, append_nil_r in EB.
    apply (f_equal JS.reverse) in EB.
    rewrite reverse_involutive, reverse_joined in EB.
    destruct (dropTokens_drops JS.whiteSpace s 0 "" _ eq_refl eq_refl)
      as (front & FF & EF).
    fold (JS.trimStart s) in EF. rewrite EB in EF.
    exists (front ++ rev (map JS.reverse back))%list. split.
    + apply Forall_app. split; [exact FF|].
      apply Forall_rev, Forall_map.
      eapply Forall_impl; [|exact FB].
      intros t I. apply in_map_iff in I as (u & <- & I).
      now rewrite reverse_involutive.
    + now rewrite joined_app.
  - intros B. unfold JS.trim. now rewrite (trimStart_blank s B).
Qed.

(** ** More on submitting *)

Lemma world_eta w :
  {| pageLanguage := pageLanguage w; chat := chat w;
     positionDue := positionDue w; replies := replies w;
     session := session w |} = w.
Proof. now destruct w. Qed.

Lemma submit_blank tick w :
  JS.trim (inputValue (chat w)) = "" -> submit tick w = w.
Proof.
  intros B. unfold submit.
  rewrite (handleSendMessage_blank _ _ _ B), app_nil_r. apply world_eta.
Qed.

(** X1. [handleSendMessage] does nothing exactly when the input is made of
    white space only (spaces, tabs, line ends, the Unicode spaces); then
    neither the send button nor the Enter key changes anything in the
    world.  Any other input is sent. *)
Theorem blank_input_is_never_sent language tick s :
  (handleSendMessage language tick s = (s, None) <-> blank (inputValue s)) /\
  (forall platform w key shiftKey,
     blank (inputValue (chat w)) ->
     step platform (ClickSend tick) w = w /\
     step platform (KeyPress key shiftKey tick) w = w).
Proof.
  split.
  - rewrite <- trim_empty_iff. unfold handleSendMessage.
    destruct (JS.trim (inputValue s)) as [|c rest]; cbn [JS.truthy negb].
    + split; reflexivity.
    + split; [intros H; discriminate (f_equal snd H) | discriminate].
  - intros platform w key shiftKey B. apply trim_empty_iff in B.
    cbn [step]. unfold sendDisabled, handleKeyPress. rewrite B. cbn [JS.truthy negb orb].
    split; [reflexivity|].
    destruct (inputDisabled (chat w)); [reflexivity|].
    destruct (_ && _); [now apply submit_blank | reflexivity].
Qed.

Lemma blank_input_is_never_sent_witness :
  let w := step browser (Change (" " ++ JS.bytes [9; 194; 160; 10])) (mount browser) in
  step browser (ClickSend (atTime 1700000060000)) w = w /\
  step browser (KeyPress "Enter" false (atTime 1700000060000)) w = w.
Proof.
  intros w.
  destruct (blank_input_is_never_sent en (atTime 1700000060000) initialState)
    as [_ H].
  apply (H browser w "Enter" false).
  exists [" "; JS.bytes [9]; JS.bytes [194; 160]; JS.bytes [10]].
  split; [|reflexivity].
  repeat (apply Forall_cons;
          [unfold JS.whiteSpace; cbn [map JS.bytes];
           repeat (first [left; reflexivity | right])|]).
  apply Forall_nil.
Defined.

(** X2. Whenever the input field is enabled, Enter without Shift does
    exactly what a click on the send button does, and any other key press
    does nothing. *)
Theorem enter_is_send platform w tick :
  inputDisabled (chat w) = false ->
  step platform (KeyPress "Enter" false tick) w = step platform (ClickSend tick) w /\
  (forall key shiftKey,
     key <> "Enter" \/ shiftKey = true ->
     step platform (KeyPress key shiftKey tick) w = w).
Proof.
  intros D. cbn [step]. rewrite D. unfold handleKeyPress, sendDisabled.
  unfold inputDisabled in D. apply orb_false_elim in D as [_ P]. rewrite P.
  split.
  - cbn. rewrite orb_false_r.
    destruct (JS.trim (inputValue (chat w))) eqn:T; cbn [JS.truthy negb];
      [now apply submit_blank | reflexivity].
  - intros key shiftKey [K | ->].
    + apply String.eqb_neq in K. now rewrite K.
    + now rewrite andb_false_r.
Qed.

Lemma enter_is_send_witness :
  let w := step browser (Change "water level") (mount browser) in
  step browser (KeyPress "Enter" false (atTime 1700000061000)) w
  = step browser (ClickSend (atTime 1700000061000)) w.
Proof.
  intros w. apply (enter_is_send browser w (atTime 1700000061000)). reflexivity.
Defined.


(** ** More on the event loop *)

Lemma runFrom_snoc platform w events e :
  runFrom platform w (events ++ [e])
  = step platform e (runFrom platform w events).
Proof. unfold runFrom. now rewrite fold_left_app. Qed.

Lemma startListening_frame language tick protocol hostname start s s' b :
  startListening language tick protocol hostname start s = Normal (s', b) ->
  inputValue s' = inputValue s /\
  isProcessing s' = isProcessing s /\
  userLocation s' = userLocation s /\
  locationPermission s' = locationPermission s /\
  recognitionRef s' = recognitionRef s.
Proof.
  unfold startListening.
  destruct (recognitionRef s) eqn:R; [|intros [= <- _]; cbn; now rewrite R].
  destruct (negb _ && negb _); [intros [= <- _]; cbn; now rewrite R|].
  destruct start as [u|e]; intros [= <- _]; cbn; now rewrite R.
Qed.

Lemma submit_frame tick w :
  pageLanguage (submit tick w) = pageLanguage w /\
  positionDue (submit tick w) = positionDue w /\
  session (submit tick w) = session w /\
  userLocation (chat (submit tick w)) = userLocation (chat w) /\
  locationPermission (chat (submit tick w)) = locationPermission (chat w) /\
  recognitionRef (chat (submit tick w)) = recognitionRef (chat w) /\
  isListening (chat (submit tick w)) = isListening (chat w).
Proof.
  unfold submit, handleSendMessage. destruct (negb _); cbn; repeat split.
Qed.

(** Only the two location callbacks touch the location state, and only
    while one of them is due. *)
Lemma step_location platform e w :
  (positionDue (step platform e w) = positionDue w /\
   locationPermission (chat (step platform e w)) = locationPermission (chat w) /\
   userLocation (chat (step platform e w)) = userLocation (chat w))
  \/ (positionDue w <> None /\
      positionDue (step platform e w) = None /\
      ((locationPermission (chat (step platform e w)) = granted /\
        userLocation (chat (step platform e w)) <> None)
       \/ (locationPermission (chat (step platform e w)) = denied /\
           userLocation (chat (step platform e w)) = userLocation (chat w)))).
Proof.
  destruct e; cbn [step].
  - left. destruct (inputDisabled (chat w)); repeat split.
  - left. destruct (inputDisabled (chat w)); [repeat split|].
    unfold handleKeyPress. destruct (_ && _); [|repeat split].
    destruct (submit_frame tick w) as (_ & D & _ & U & P & _). now rewrite D, U, P.
  - left. destruct (sendDisabled (chat w)); [repeat split|].
    destruct (submit_frame tick w) as (_ & D & _ & U & P & _). now rewrite D, U, P.
  - left. destruct (replies w); repeat split.
  - left. destruct (micDisabled (chat w)); [repeat split|].
    destruct (startListening _ _ _ _ _ _) as [[s' b]|err] eqn:E; [|repeat split].
    destruct (startListening_frame _ _ _ _ _ _ _ _ E) as (_ & _ & U & P & _).
    cbn. now rewrite U, P.
  - left. destruct (session w); repeat split.
  - left. destruct (session w); repeat split.
  - left. destruct (session w); repeat split.
  - left. destruct (session w); repeat split.
  - destruct (positionDue w) eqn:D; [right | left; now rewrite D].
    split; [discriminate|]. split; [reflexivity|]. left. split; [reflexivity | discriminate].
  - destruct (positionDue w) eqn:D; [right | left; now rewrite D].
    split; [discriminate|]. split; [reflexivity|]. right. split; reflexivity.
  - left. cbn. unfold initRecognition.
    destruct (hasSpeechRecognition platform); repeat split.
  - left. destruct (existsb _ _); repeat split.
Qed.

Lemma step_locationSettled platform e w :
  locationSettled w -> locationSettled (step platform e w).
Proof.
  unfold locationSettled. intros I.
  destruct (step_location platform e w)
    as [(D & P & U) | (N & D & [[P U] | [P U]])]; rewrite D.
  - now rewrite P, U.
  - right. now split.
  - left. split; [exact P|]. rewrite U.
    destruct (positionDue w); [apply I | contradiction].
Qed.

Lemma reachable_locationSettled platform w :
  reachable platform w -> locationSettled w.
Proof.
  apply (reachable_ind platform locationSettled).
  - unfold locationSettled, mount, requestLocationPermission, initRecognition.
    destruct (hasGeolocation platform), (hasSpeechRecognition platform);
      cbn; auto.
  - intros e w0 _. apply step_locationSettled.
Qed.

(** X3. The permission is decided once: in every reachable world it is
    granted exactly when a location is stored, and once it is no longer
    pending no event changes the permission or the stored location. *)
Theorem permission_settles_once platform w :
  reachable platform w ->
  (locationPermission (chat w) = granted <-> userLocation (chat w) <> None) /\
  (locationPermission (chat w) <> pending ->
   forall events,
     locationPermission (chat (runFrom platform w events))
       = locationPermission (chat w) /\
     userLocation (chat (runFrom platform w events)) = userLocation (chat w)).
Proof.
  intros R. pose proof (reachable_locationSettled platform w R) as S.
  split.
  - unfold locationSettled in S.
    destruct (positionDue w); [destruct S as [P U]|destruct S as [[P U]|[P U]]];
      rewrite P; split; intros H; congruence.
  - intros NP events.
    assert (D : positionDue w = None).
    { unfold locationSettled in S. destruct (positionDue w); [|reflexivity].
      destruct S as [P _]. contradiction. }
    clear S R NP.
    induction events as [|e events IH] using rev_ind; [now split|].
    rewrite runFrom_snoc.
    assert (D' : positionDue (runFrom platform w events) = None).
    { clear IH. induction events as [|e' events IH'] using rev_ind; [exact D|].
      rewrite runFrom_snoc.
      destruct (step_location platform e' (runFrom platform w events))
        as [(E & _) | (_ & E & _)]; [now rewrite E | exact E]. }
    destruct (step_location platform e (runFrom platform w events))
      as [(_ & P & U) | (N & _)]; [|contradiction].
    rewrite P, U. exact IH.
Qed.

Lemma permission_settles_once_witness :
  locationPermission
    (chat (runFrom browser busy
             [ PositionFound {| coords_latitude := 28.5; coords_longitude := 77.25 |}
                 (atTime 1700000070000);
               TimerFired (atTime 1700000071000) ]))
  = denied.
Proof.
  assert (R : reachable browser busy).
  { now exists [ PositionFailed (atTime 1700000001000);
                 Change "Water quality in Delhi";
                 ClickSend (atTime 1700000009000);
                 ClickChip "Bangalore data" ]. }
  destruct (permission_settles_once browser busy R) as [_ H].
  apply H. discriminate.
Defined.

Lemma reachable_oneReplyAtMost platform w :
  reachable platform w -> oneReplyAtMost w.
Proof.
  apply (reachable_ind platform oneReplyAtMost).
  - apply mount_oneReplyAtMost.
  - intros e w0 _. apply step_oneReplyAtMost.
Qed.

(** X4. In every reachable world the timer ends the processing it belongs
    to: with the processing flag up, the firing timer appends exactly one
    assistant message, lowers the flag and leaves no answer owed; with the
    flag down it changes nothing. *)
Theorem timer_ends_processing platform w tick :
  reachable platform w ->
  let w' := step platform (TimerFired tick) w in
  (isProcessing (chat w) = true ->
     isProcessing (chat w') = false /\ replies w' = [] /\
     exists m, isUser m = false /\
               messages (chat w') = (messages (chat w) ++ [m])%list) /\
  (isProcessing (chat w) = false -> w' = w).
Proof.
  intros R w'. subst w'.
  destruct (reachable_oneReplyAtMost platform w R) as [[F E] | [T [p E]]];
    cbn [step]; rewrite E; (split; [|intros; congruence || reflexivity]).
  - intros H. congruence.
  - intros _. cbn. repeat split.
    eexists. split; [|reflexivity].
    destruct (intentOf_total (pendingMessage p)) as [i Hi].
    rewrite (generateResponse_intent _ _ _ _ _ Hi). now destruct i.
Qed.

Lemma timer_ends_processing_witness :
  isProcessing (chat (step browser (TimerFired (atTime 1700000010000)) busy)) = false.
Proof.
  assert (R : reachable browser busy).
  { now exists [ PositionFailed (atTime 1700000001000);
                 Change "Water quality in Delhi";
                 ClickSend (atTime 1700000009000);
                 ClickChip "Bangalore data" ]. }
  destruct (timer_ends_processing browser busy (atTime 1700000010000) R)
    as [H _].
  now destruct (H eq_refl) as [P _].
Defined.

Lemma submit_appends tick w :
  messages (chat (submit tick w)) = messages (chat w)
  \/ exists m, plain m /\
       messages (chat (submit tick w)) = (messages (chat w) ++ [m])%list.
Proof.
  unfold submit, handleSendMessage.
  destruct (negb _); cbn; [now left|].
  right. eexists. split; [|reflexivity]. now apply user_plain.
Qed.

Lemma startListening_appends language tick protocol hostname start s s' b :
  startListening language tick protocol hostname start s = Normal (s', b) ->
  messages s' = messages s
  \/ exists m, plain m /\ messages s' = (messages s ++ [m])%list.
Proof.
  unfold startListening.
  destruct (recognitionRef s);
    [|intros [= <- _]; right; eexists; split; [apply notice_plain | reflexivity]].
  destruct (negb _ && negb _);
    [intros [= <- _]; right; eexists; split; [apply notice_plain | reflexivity]|].
  destruct start as [u|e]; intros [= <- _];
    [now left | right; eexists; split; [apply notice_plain | reflexivity]].
Qed.

(** One event, once no location callback is due: the store keeps what it
    has and gains at most one message, which is no greeting and no
    fallback. *)
Lemma step_appends platform e w :
  positionDue w = None ->
  positionDue (step platform e w) = None /\
  (messages (chat (step platform e w)) = messages (chat w)
   \/ exists m, plain m /\
        messages (chat (step platform e w)) = (messages (chat w) ++ [m])%list).
Proof.
  intros D. split.
  - destruct (step_location platform e w) as [(E & _) | (_ & E & _)];
      [now rewrite E | exact E].
  - destruct e; cbn [step]; try rewrite D.
    + destruct (inputDisabled (chat w)); now left.
    + destruct (inputDisabled (chat w)); [now left|].
      unfold handleKeyPress. destruct (_ && _); [apply submit_appends | now left].
    + destruct (sendDisabled (chat w)); [now left | apply submit_appends].
    + destruct (replies w); [now left|].
      right. eexists. split; [apply generateResponse_plain | reflexivity].
    + destruct (micDisabled (chat w)); [now left|].
      destruct (startListening _ _ _ _ _ _) as [[s' b]|err] eqn:E; [|now left].
      apply (startListening_appends _ _ _ _ _ _ _ _ E).
    + destruct (session w); now left.
    + destruct (session w); now left.
    + destruct (session w); [|now left].
      right. eexists. split; [apply notice_plain | reflexivity].
    + destruct (session w); now left.
    + now left.
    + now left.
    + left. cbn. apply (proj1 (initRecognition_frame _ _ _)).
    + destruct (existsb _ _); now left.
Qed.

(** X5. Once the location request is settled the store is append-only:
    whatever events follow, the store of before is a prefix of the store
    of after, and nothing appended is a greeting or a fallback. *)
Theorem store_is_append_only_once_settled platform w events :
  positionDue w = None ->
  exists suffix,
    messages (chat (runFrom platform w events))
      = (messages (chat w) ++ suffix)%list /\
    Forall plain suffix /\
    List.length suffix <= List.length events.
Proof.
  intros D.
  assert (H : positionDue (runFrom platform w events) = None /\
              exists suffix,
                messages (chat (runFrom platform w events))
                  = (messages (chat w) ++ suffix)%list /\
                Forall plain suffix /\
                List.length suffix <= List.length events);
    [|exact (proj2 H)].
  induction events as [|e events IH] using rev_ind.
  - split; [exact D|]. exists []. cbn. rewrite app_nil_r. repeat split; constructor.
  - destruct IH as (D' & suffix & M & F & L).
    rewrite runFrom_snoc.
    destruct (step_appends platform e _ D') as (D'' & [E | (m & Pm & E)]).
    + split; [exact D''|]. exists suffix. rewrite E, M, length_app. cbn.
      repeat split; [exact F | apply Nat.le_trans with (1 := L), Nat.le_add_r].
    + split; [exact D''|]. exists (suffix ++ [m])%list.
      rewrite E, M, <- app_assoc, !length_app. cbn.
      repeat split.
      * apply Forall_app. split; [exact F | now constructor].
      * now apply Nat.add_le_mono_r.
Qed.

Lemma store_is_append_only_once_settled_witness :
  exists suffix,
    messages (chat (runFrom browser busy
                      [TimerFired (atTime 1700000010000); ClickLanguage]))
    = (messages (chat busy) ++ suffix)%list.
Proof.
  destruct (store_is_append_only_once_settled browser busy
              [TimerFired (atTime 1700000010000); ClickLanguage] eq_refl)
    as (suffix & M & _).
  now exists suffix.
Defined.

(** X6. The store changes only in a handler that reads the clock: typing,
    a chip, the start, result and end of a recognition session and the
    language button leave the store, the processing flag and the owed
    answers as they are. *)
Theorem only_clocked_events_touch_the_store platform e w :
  reading e = None ->
  messages (chat (step platform e w)) = messages (chat w) /\
  isProcessing (chat (step platform e w)) = isProcessing (chat w) /\
  replies (step platform e w) = replies w.
Proof.
  destruct e; cbn [reading]; try discriminate; intros _; cbn [step].
  - destruct (inputDisabled (chat w)); repeat split.
  - destruct (session w); repeat split.
  - destruct (session w); repeat split.
  - destruct (session w); repeat split.
  - cbn. destruct (initRecognition_frame (hasSpeechRecognition platform)
                     (toggle (pageLanguage w)) (chat w)) as (M & _ & P & _).
    now rewrite M, P.
  - destruct (existsb _ _); repeat split.
Qed.

Lemma only_clocked_events_touch_the_store_witness :
  messages (chat (step browser (SpeechResult "water quality") busy))
  = messages (chat busy).
Proof.
  apply (only_clocked_events_touch_the_store browser
           (SpeechResult "water quality") busy eq_refl).
Defined.

Lemma step_recognizerCurrent platform e w :
  recognizerCurrent platform w -> recognizerCurrent platform (step platform e w).
Proof.
  unfold recognizerCurrent. intros I. destruct e; cbn [step].
  - destruct (inputDisabled (chat w)); exact I.
  - destruct (inputDisabled (chat w)); [exact I|].
    unfold handleKeyPress. destruct (_ && _); [|exact I].
    destruct (submit_frame tick w) as (L & _ & _ & _ & _ & R & _). now rewrite L, R.
  - destruct (sendDisabled (chat w)); [exact I|].
    destruct (submit_frame tick w) as (L & _ & _ & _ & _ & R & _). now rewrite L, R.
  - destruct (replies w); exact I.
  - destruct (micDisabled (chat w)); [exact I|].
    destruct (startListening _ _ _ _ _ _) as [[s' b]|err] eqn:E; [|exact I].
    destruct (startListening_frame _ _ _ _ _ _ _ _ E) as (_ & _ & _ & _ & R).
    cbn. now rewrite R.
  - destruct (session w); exact I.
  - destruct (session w); exact I.
  - destruct (session w); exact I.
  - destruct (session w); exact I.
  - destruct (positionDue w); exact I.
  - destruct (positionDue w); exact I.
  - cbn. unfold initRecognition.
    destruct (hasSpeechRecognition platform); [reflexivity | exact I].
  - destruct (existsb _ _); exact I.
Qed.

Lemma reachable_recognizerCurrent platform w :
  reachable platform w -> recognizerCurrent platform w.
Proof.
  apply (reachable_ind platform (recognizerCurrent platform)).
  - unfold recognizerCurrent, mount, requestLocationPermission, initRecognition.
    destruct (hasGeolocation platform), (hasSpeechRecognition platform);
      reflexivity.
  - intros e w0 _. apply step_recognizerCurrent.
Qed.

(** X7. In every reachable world the component holds a recognizer exactly
    when the platform has the capability, and the one it holds is
    single-shot, without interim results, set to the locale of the page
    language ([hi-IN] or [en-US]) and reporting in that language. *)
Theorem recognizer_follows_language platform w :
  reachable platform w ->
  (recognitionRef (chat w) = None <-> hasSpeechRecognition platform = false) /\
  (forall r, recognitionRef (chat w) = Some r ->
     continuous r = false /\ interimResults r = false /\
     lang r = ifHi (pageLanguage w) "hi-IN" "en-US" /\
     callbackLanguage r = pageLanguage w).
Proof.
  intros R. pose proof (reachable_recognizerCurrent platform w R) as C.
  unfold recognizerCurrent in C. rewrite C.
  destruct (hasSpeechRecognition platform); split;
    try (split; congruence); intros r [= <-]; repeat split.
Qed.

Lemma recognizer_follows_language_witness :
  option_map lang (recognitionRef (chat (step browser ClickLanguage busy)))
  = Some "hi-IN".
Proof.
  assert (R : reachable browser (step browser ClickLanguage busy)).
  { now exists [ PositionFailed (atTime 1700000001000);
                 Change "Water quality in Delhi";
                 ClickSend (atTime 1700000009000);
                 ClickChip "Bangalore data";
                 ClickLanguage ]. }
  destruct (recognizer_follows_language browser _ R) as [_ H].
  destruct (recognitionRef (chat (step browser ClickLanguage busy))) as [r|] eqn:E;
    [|discriminate E].
  destruct (H r eq_refl) as (_ & _ & L & _). cbn. now rewrite L.
Defined.

Lemma toggle_involutive language : toggle (toggle language) = language.
Proof. now destruct language. Qed.

(** X8. Two clicks on the language button bring a reachable world back to
    exactly where it was: language, recognizer, store and all. *)
Theorem language_toggle_round_trip platform w :
  reachable platform w ->
  step platform ClickLanguage (step platform ClickLanguage w) = w.
Proof.
  intros R. pose proof (reachable_recognizerCurrent platform w R) as C.
  unfold recognizerCurrent in C.
  cbn [step pageLanguage chat positionDue replies session].
  rewrite toggle_involutive.
  destruct w as [l c d rs se]. cbn in *. f_equal.
  unfold initRecognition.
  destruct (hasSpeechRecognition platform); [|reflexivity].
  destruct c. cbn in *. unfold setRecognitionRef. cbn. now rewrite C.
Qed.

Lemma language_toggle_round_trip_witness :
  step browser ClickLanguage (step browser ClickLanguage busy) = busy.
Proof.
  apply language_toggle_round_trip.
  now exists [ PositionFailed (atTime 1700000001000);
               Change "Water quality in Delhi";
               ClickSend (atTime 1700000009000);
               ClickChip "Bangalore data" ].
Defined.

(** ** Where messages come from *)

Lemma submit_origin tick w :
  Forall origin (messages (chat w)) ->
  Forall origin (messages (chat (submit tick w))).
Proof.
  intros F. unfold submit, handleSendMessage.
  destruct (negb _); cbn; [exact F|].
  apply Forall_app. split; [exact F|].
  constructor; [|constructor]. now apply fromUser.
Qed.

Lemma startListening_origin language tick protocol hostname start s s' b :
  recognitionRef s <> None ->
  startListening language tick protocol hostname start s = Normal (s', b) ->
  Forall origin (messages s) -> Forall origin (messages s').
Proof.
  unfold startListening. intros R.
  destruct (recognitionRef s); [clear R | contradiction].
  destruct (negb _ && negb _).
  - intros [= <- _] F. cbn. apply Forall_app. split; [exact F|].
    constructor; [|constructor]. now apply fromInsecurePage with language tick.
  - destruct start as [u|e]; intros [= <- _] F; [exact F|].
    cbn. apply Forall_app. split; [exact F|].
    constructor; [|constructor]. now apply fromFailedStart with language tick.
Qed.

Lemma generateResponse_origin language location tick userMessage :
  origin (generateResponse language location tick userMessage).
Proof.
  destruct (intentOf_total userMessage) as [i H].
  rewrite (generateResponse_intent _ _ _ _ _ H).
  now apply fromDispatcher with language location tick i.
Qed.

Lemma step_origin platform e w :
  Forall origin (messages (chat w)) ->
  Forall origin (messages (chat (step platform e w))).
Proof.
  intros F. destruct e; cbn [step].
  - destruct (inputDisabled (chat w)); exact F.
  - destruct (inputDisabled (chat w)); [exact F|].
    unfold handleKeyPress.
    destruct (_ && _); [now apply submit_origin | exact F].
  - destruct (sendDisabled (chat w)); [exact F | now apply submit_origin].
  - destruct (replies w); [exact F|].
    cbn. apply Forall_app. split; [exact F|].
    constructor; [apply generateResponse_origin | constructor].
  - unfold micDisabled.
    destruct (recognitionRef (chat w)) eqn:R; [|exact F].
    destruct (_ || _); [exact F|].
    destruct (startListening _ _ _ _ _ _) as [[s' b]|err] eqn:E; [|exact F].
    cbn. apply (startListening_origin _ _ _ _ _ _ _ _) with (2 := E); [|exact F].
    now rewrite R.
  - destruct (session w); exact F.
  - destruct (session w); exact F.
  - destruct (session w); [|exact F].
    cbn. apply Forall_app. split; [exact F|].
    constructor; [|constructor]. now apply fromRecognition with l tick error.
  - destruct (session w); exact F.
  - destruct (positionDue w); [|exact F].
    cbn. constructor; [|constructor]. now apply fromGreeter with l tick.
  - destruct (positionDue w); [|exact F].
    cbn. constructor; [|constructor]. now apply fromRefusal with l tick.
  - cbn. now rewrite (proj1 (initRecognition_frame _ _ _)).
  - destruct (existsb _ _); exact F.
Qed.

Lemma reachable_origin platform w :
  reachable platform w -> Forall origin (messages (chat w)).
Proof.
  apply (reachable_ind platform (fun w => Forall origin (messages (chat w)))).
  - rewrite mount_messages. constructor.
  - intros e w0 _. apply step_origin.
Qed.

Lemma origin_available m : origin m -> ~ unavailableNotice m.
Proof.
  intros O [U T].
  destruct O as [U'| l loc t i -> | l t e -> | l t -> | l t -> | l t -> | l t ->].
  - congruence.
  - destruct i, l, loc; cbn in T; destruct T as [T|T]; discriminate T.
  - unfold errorMessage in T. cbn in T.
    destruct (String.eqb e "not-allowed"), (String.eqb e "no-speech"), l;
      destruct T as [T|T]; discriminate T.
  - destruct l; destruct T as [T|T]; discriminate T.
  - destruct l; destruct T as [T|T]; discriminate T.
  - destruct l; destruct T as [T|T]; discriminate T.
  - destruct l; destruct T as [T|T]; discriminate T.
Qed.

(** X9. Every message of a reachable store was written by the user or
    built by the dispatcher, by the recognizer's error callback, by
    [startListening] on an insecure page or a failed start, or by a
    location callback.  The not-available notice of [startListening]
    never appears: the microphone button is disabled whenever there is no
    recognizer. *)
Theorem not_available_notice_is_unreachable platform w m :
  reachable platform w -> In m (messages (chat w)) ->
  origin m /\ ~ unavailableNotice m.
Proof.
  intros R I.
  pose proof (reachable_origin platform w R) as F.
  rewrite Forall_forall in F. specialize (F m I).
  split; [exact F | now apply origin_available].
Qed.

Lemma not_available_notice_is_unreachable_witness :
  ~ unavailableNotice (deniedMessage en (atTime 1700000001000)).
Proof.
  apply (not_available_notice_is_unreachable browser busy).
  - now exists [ PositionFailed (atTime 1700000001000);
                 Change "Water quality in Delhi";
                 ClickSend (atTime 1700000009000);
                 ClickChip "Bangalore data" ].
  - left. reflexivity.
Defined.

(** ** What the bubbles show *)

Lemma isPredict_historical index : isPredict historicalData index = false.
Proof. do 7 (destruct index as [|index]; [reflexivity|]). reflexivity. Qed.

Lemma isPredict_predictive index :
  isPredict predictiveData index = true <->
  List.length historicalData <= index < List.length predictiveData.
Proof.
  change (List.length historicalData) with 6.
  change (List.length predictiveData) with 11.
  do 6 (destruct index as [|index];
        [split; [intros E; vm_compute in E; discriminate E | lia]|]).
  do 5 (destruct index as [|index]; [split; [lia | reflexivity]|]).
  split; [intros E; destruct index; vm_compute in E; discriminate E | lia].
Qed.

Lemma historical_not_predictive : historicalData <> predictiveData.
Proof. intros E. discriminate (f_equal (@List.length _) E). Qed.

(** X10. In every reachable store a user message shows nothing below its
    text; no message shows both the chart and the comparison; a message
    marked as a prediction shows the chart; and a row of chips, when
    shown, has exactly three chips. *)
Theorem bubbles_are_well_formed platform w m :
  reachable platform w -> In m (messages (chat w)) ->
  (isUser m = true -> bubble m = []) /\
  (chartFlag m && comparisonFlag m = false) /\
  (predictionMarker m = true -> chartFlag m = true) /\
  (forall chips, In (ChipsPart chips) (bubble m) -> List.length chips = 3).
Proof.
  intros R I.
  pose proof (reachable_origin platform w R) as F.
  rewrite Forall_forall in F. specialize (F m I).
  destruct F as [U D C P S | l loc t i -> | l t e -> | l t -> | l t -> | l t -> | l t ->].
  - unfold bubble, chartFlag, comparisonFlag, predictionMarker.
    rewrite U, D, C, P, S. cbn.
    repeat split; (discriminate || contradiction).
  - destruct i; bubble_shape.
  - bubble_shape.
  - bubble_shape.
  - bubble_shape.
  - bubble_shape.
  - bubble_shape.
Qed.

Lemma bubbles_are_well_formed_witness :
  Forall (fun m => chartFlag m && comparisonFlag m = false) (messages (chat busy)).
Proof.
  apply Forall_forall. intros m I.
  apply (bubbles_are_well_formed browser busy m); [|exact I].
  now exists [ PositionFailed (atTime 1700000001000);
               Change "Water quality in Delhi";
               ClickSend (atTime 1700000009000);
               ClickChip "Bangalore data" ].
Defined.

(** X11. What the bubble of an answer shows is decided by the intent of
    the question: quality and level show the chart of the historical data
    and the chips; prediction shows the chart in prediction mode and the
    chips; comparison shows the comparison and the chips; help shows the
    chips alone.  The chart draws a prediction marker exactly at the points
    after the historical ones, and only for a prediction. *)
Theorem answer_bubble_follows_intent language location tick userMessage i :
  intentOf userMessage i ->
  let r := generateResponse language location tick userMessage in
  bubble r =
    match i with
    | Quality | Level => [ChartPart false; ChipsPart (chipsOf r)]
    | Prediction => [ChartPart true; ChipsPart (chipsOf r)]
    | Comparison => [ComparisonPart; ChipsPart (chipsOf r)]
    | Help => [ChipsPart (chipsOf r)]
    end /\
  (forall p, In (ChartPart p) (bubble r) ->
     (chartData p = predictiveData <-> i = Prediction) /\
     forall index,
       isPredict (chartData p) index = true <->
       i = Prediction /\
       List.length historicalData <= index < List.length predictiveData).
Proof.
  intros H r. subst r. rewrite (generateResponse_intent _ _ _ _ _ H).
  destruct i; (split; [reflexivity|]); cbn [bubble]; intros p I; cbn in I;
    repeat match goal with
           | I : _ \/ _ |- _ => destruct I as [I|I]
           | I : False |- _ => destruct I
           | I : ChartPart _ = ChartPart _ |- _ => injection I as <-
           | I : _ = ChartPart _ |- _ => discriminate I
           end; cbn [chartData].
  - split; [split; [intros E; now apply historical_not_predictive in E | discriminate]|].
    intros index. rewrite isPredict_historical. split; [discriminate | intros [E _]; discriminate E].
  - split; [split; reflexivity|].
    intros index. rewrite isPredict_predictive. tauto.
  - split; [split; [intros E; now apply historical_not_predictive in E | discriminate]|].
    intros index. rewrite isPredict_historical. split; [discriminate | intros [E _]; discriminate E].
Qed.

Lemma answer_bubble_follows_intent_witness :
  bubble (generateResponse en None (atTime 1700000080000) "Predict the water table")
  = [ChartPart true; ChipsPart ["Risk analysis"; "Get recommendations"; "Set alerts"]].
Proof.
  apply (answer_bubble_follows_intent en None (atTime 1700000080000)
           "Predict the water table" Prediction).
  constructor;
    try (apply tests_not_mentions; vm_compute; reflexivity).
  apply tests_mentions. vm_compute. reflexivity.
Defined.


(** ** Chips and sample queries *)

Lemma generateResponse_classify language location tick userMessage :
  generateResponse language location tick userMessage
  = response language location tick (classify userMessage).
Proof.
  rewrite generateResponse_tests. unfold classify.
  destruct (tests userMessage Quality); [reflexivity|].
  destruct (tests userMessage Comparison); [reflexivity|].
  destruct (tests userMessage Prediction); [reflexivity|].
  destruct (tests userMessage Level); reflexivity.
Qed.

(** X12. The two languages of the tables agree on what they ask for: the
    Hindi chip or sample query in a given position is answered with the
    same intent as the English one in that position.  The sample queries
    ask for quality, comparison and prediction; the chips of the greeting
    for quality, level and prediction; those of the fallback for quality,
    comparison and help; and [classify] is the intent [generateResponse]
    answers. *)
Theorem tables_agree_across_languages :
  (forall language location tick userMessage,
     generateResponse language location tick userMessage
     = response language location tick (classify userMessage)) /\
  (forall location tick i,
     map classify (chipsOf (response en location tick i))
     = map classify (chipsOf (response hi location tick i))) /\
  (forall language,
     map classify (sampleQueries language) = [Quality; Comparison; Prediction]) /\
  (forall language tick,
     map classify (chipsOf (welcomeMessage language tick))
     = [Quality; Level; Prediction]) /\
  (forall language tick,
     map classify (chipsOf (deniedMessage language tick))
     = [Quality; Comparison; Help]).
Proof.
  split; [exact generateResponse_classify|].
  split; [intros location tick i; destruct i; vm_compute; reflexivity|].
  split; [intros language; destruct language; vm_compute; reflexivity|].
  split; intros language tick; destruct language; vm_compute; reflexivity.
Qed.

(** ** Sequences of events *)

(** X13. A recognised transcript is put into the input field and not
    sent: whatever else holds of the world, the store, the processing flag
    and the owed answers are unchanged, and listening stops.  When no
    answer is owed and the transcript is not blank, a click on send then
    posts the transcript as it is, and the answer is the one
    [generateResponse] gives for it. *)
Theorem transcript_is_prefilled_then_sent platform w transcript :
  session w <> None ->
  let w1 := step platform (SpeechResult transcript) w in
  messages (chat w1) = messages (chat w) /\
  inputValue (chat w1) = transcript /\
  isListening (chat w1) = false /\
  isProcessing (chat w1) = isProcessing (chat w) /\
  replies w1 = replies w /\
  (forall tick tick',
     isProcessing (chat w) = false -> replies w = [] -> ~ blank transcript ->
     exists user,
       isUser user = true /\ text user = transcript /\
       messages (chat (step platform (TimerFired tick')
                         (step platform (ClickSend tick) w1)))
       = (messages (chat w) ++
          [user;
           generateResponse (pageLanguage w) (userLocation (chat w)) tick'
             transcript])%list).
Proof.
  intros S w1.
  assert (E : w1 = withChat (onresult transcript) w).
  { subst w1. cbn [step]. destruct (session w); [reflexivity | contradiction]. }
  clearbody w1. subst w1.
  split; [reflexivity|]. split; [reflexivity|]. split; [reflexivity|].
  split; [reflexivity|]. split; [reflexivity|].
  intros tick tick' P R B.
  destruct (send_then_answer platform (withChat (onresult transcript) w) tick tick')
    as (user & U & T & M).
  - unfold sendDisabled.
    change (inputValue (chat (withChat (onresult transcript) w))) with transcript.
    change (isProcessing (chat (withChat (onresult transcript) w)))
      with (isProcessing (chat w)).
    rewrite P, orb_false_r.
    destruct (JS.trim transcript) eqn:Tr; [|reflexivity].
    exfalso. apply B. now apply trim_empty_iff.
  - exact R.
  - exists user. split; [exact U|]. split; [exact T | exact M].
Qed.

Lemma transcript_is_prefilled_then_sent_witness :
  let w := run browser
             [ Change "wat";
               ClickMic (atTime 1700000090000) (Normal tt);
               SpeechStart ] in
  inputValue (chat (step browser (SpeechResult "compare Pune and Delhi") w))
    = "compare Pune and Delhi" /\
  map text
    (messages (chat (step browser (TimerFired (atTime 1700000092000))
                       (step browser (ClickSend (atTime 1700000091000))
                          (step browser (SpeechResult "compare Pune and Delhi") w)))))
    = [ "compare Pune and Delhi";
        "Here's a comparison of groundwater data between the two locations." ].
Proof.
  intros w.
  destruct (transcript_is_prefilled_then_sent browser w "compare Pune and Delhi")
    as (_ & V & _ & _ & _ & H).
  - discriminate.
  - split; [exact V|].
    destruct (H (atTime 1700000091000) (atTime 1700000092000) eq_refl eq_refl)
      as (user & _ & T & M).
    + intros B. apply trim_empty_iff in B. discriminate B.
    + rewrite M, map_app. cbn [map]. rewrite T. reflexivity.
Defined.

(** X14. An answer is built for the render that sent the question: when
    the language is switched while the answer is owed, the answer still
    comes in the language of the moment of sending, although the page has
    moved to the other one. *)
Theorem pending_answer_keeps_its_language platform w tick tick' :
  sendDisabled (chat w) = false -> replies w = [] ->
  let w' := step platform (TimerFired tick')
              (step platform ClickLanguage (step platform (ClickSend tick) w)) in
  pageLanguage w' = toggle (pageLanguage w) /\
  exists user,
    isUser user = true /\ text user = inputValue (chat w) /\
    messages (chat w')
    = (messages (chat w) ++
       [user;
        generateResponse (pageLanguage w) (userLocation (chat w)) tick'
          (inputValue (chat w))])%list.
Proof.
  intros D R. cbn [step]. rewrite D.
  unfold submit, handleSendMessage.
  unfold sendDisabled in D. apply orb_false_elim in D as [D _].
  rewrite D. cbn. rewrite R. cbn.
  split; [reflexivity|].
  rewrite (proj1 (initRecognition_frame _ _ _)). cbn.
  eexists. split; [|split; [|now rewrite <- app_assoc]]; reflexivity.
Qed.

Lemma pending_answer_keeps_its_language_witness :
  let w := step browser (Change "water level") (mount browser) in
  map text
    (messages (chat (step browser (TimerFired (atTime 1700000096000))
                       (step browser ClickLanguage
                          (step browser (ClickSend (atTime 1700000095000)) w)))))
  = ["water level"; "Current groundwater level in this area is normal."].
Proof.
  intros w.
  destruct (pending_answer_keeps_its_language browser w
              (atTime 1700000095000) (atTime 1700000096000) eq_refl eq_refl)
    as (_ & user & _ & T & M).
  rewrite M, map_app. cbn [map]. rewrite T. reflexivity.
Defined.

(** X15. A location callback that arrives while an answer is owed
    replaces the store, the question included; the answer is then
    appended after the greeting or the fallback, and it is still worded
    for the location state of the moment of sending. *)
Theorem location_callback_discards_the_conversation
    platform w language position tick tick1 tick2 :
  sendDisabled (chat w) = false -> replies w = [] ->
  positionDue w = Some language ->
  let answer := generateResponse (pageLanguage w) (userLocation (chat w)) tick2
                  (inputValue (chat w)) in
  messages (chat (step platform (TimerFired tick2)
                    (step platform (PositionFound position tick1)
                       (step platform (ClickSend tick) w))))
    = [welcomeMessage language tick1; answer] /\
  messages (chat (step platform (TimerFired tick2)
                    (step platform (PositionFailed tick1)
                       (step platform (ClickSend tick) w))))
    = [deniedMessage language tick1; answer].
Proof.
  intros D R P. cbn [step]. rewrite D.
  unfold submit, handleSendMessage.
  unfold sendDisabled in D. apply orb_false_elim in D as [D _].
  rewrite D. cbn. rewrite P, R. cbn. split; reflexivity.
Qed.

Lemma location_callback_discards_the_conversation_witness :
  let w := step browser (Change "water quality here") (mount browser) in
  map text
    (messages (chat (step browser (TimerFired (atTime 1700000099000))
                       (step browser
                          (PositionFound
                             {| coords_latitude := 28.5; coords_longitude := 77.25 |}
                             (atTime 1700000098500))
                          (step browser (ClickSend (atTime 1700000098000)) w)))))
  = [ "Location found! I can now provide groundwater information for your area.";
      "Groundwater quality data for this area. The data shows good water quality with acceptable TDS levels." ].
Proof.
  intros w.
  destruct (location_callback_discards_the_conversation browser w en
              {| coords_latitude := 28.5; coords_longitude := 77.25 |}
              (atTime 1700000098000) (atTime 1700000098500) (atTime 1700000099000)
              eq_refl eq_refl eq_refl) as [M _].
  rewrite M. reflexivity.
Defined.

Lemma ids_distinct_when_readings_distinct_witness :
  NoDup (map id (messages (chat (run browser
    [ Change "level";
      ClickSend (atTime 1700000100000);
      TimerFired (atTime 1700000101000);
      ClickMic (atTime 1700000102000) (Throw "InvalidStateError") ])))).
Proof.
  apply (ids_distinct_when_readings_distinct browser
    [ Change "level";
      ClickSend (atTime 1700000100000);
      TimerFired (atTime 1700000101000);
      ClickMic (atTime 1700000102000) (Throw "InvalidStateError") ]).
  cbn. repeat constructor; cbn; intuition discriminate.
Defined.

(** ** More on the dispatcher *)

Lemma occursIgnoringCase_extend keyword before userMessage after :
  occursIgnoringCase keyword userMessage ->
  occursIgnoringCase keyword (before ++ userMessage ++ after).
Proof.
  intros (b & m & a & -> & L).
  exists (before ++ b), m, (a ++ after). split; [|exact L].
  now rewrite !append_assoc.
Qed.

Lemma tests_extend before userMessage after i :
  tests userMessage i = true -> tests (before ++ userMessage ++ after) i = true.
Proof.
  rewrite !tests_mentions. unfold mentions.
  destruct (keywords i) as [[e h]|]; [|contradiction].
  intros [H|H]; [left | right]; now apply occursIgnoringCase_extend.
Qed.

(** X17. Words added before or after a question can only move its answer
    up the order of the tests, never down: a question answered as quality
    stays quality, and a question that gets a chart or a comparison is
    never turned into a request for help. *)
Theorem added_words_never_lower_the_intent before userMessage after :
  rank (classify (before ++ userMessage ++ after)) <= rank (classify userMessage) /\
  (forall language location tick,
     generateResponse language location tick userMessage
       = qualityResponse language location tick ->
     generateResponse language location tick (before ++ userMessage ++ after)
       = qualityResponse language location tick).
Proof.
  assert (R : rank (classify (before ++ userMessage ++ after))
              <= rank (classify userMessage)).
  { unfold classify.
    destruct (tests userMessage Quality) eqn:Q;
      [now rewrite (tests_extend _ _ _ _ Q)|].
    destruct (tests userMessage Comparison) eqn:C;
      [rewrite (tests_extend _ _ _ _ C);
       destruct (tests (before ++ userMessage ++ after) Quality); cbn; lia|].
    destruct (tests userMessage Prediction) eqn:P;
      [rewrite (tests_extend _ _ _ _ P);
       destruct (tests (before ++ userMessage ++ after) Quality),
                (tests (before ++ userMessage ++ after) Comparison); cbn; lia|].
    destruct (tests userMessage Level) eqn:L;
      [rewrite (tests_extend _ _ _ _ L);
       destruct (tests (before ++ userMessage ++ after) Quality),
                (tests (before ++ userMessage ++ after) Comparison),
                (tests (before ++ userMessage ++ after) Prediction); cbn; lia|].
    destruct (tests (before ++ userMessage ++ after) Quality),
             (tests (before ++ userMessage ++ after) Comparison),
             (tests (before ++ userMessage ++ after) Prediction),
             (tests (before ++ userMessage ++ after) Level); cbn; lia. }
  split; [exact R|].
  intros language location tick.
  rewrite !generateResponse_classify.
  destruct (classify userMessage) eqn:E;
    try (intros H; apply (f_equal showChart) in H; discriminate H);
    try (intros H; apply (f_equal suggestions) in H; destruct language;
         discriminate H).
  intros _. cbn in R.
  destruct (classify (before ++ userMessage ++ after)); cbn in R;
    [reflexivity | lia | lia | lia | lia].
Qed.

Lemma added_words_never_lower_the_intent_witness :
  generateResponse en None (atTime 1700000110000)
    ("Please compare: " ++ "water quality" ++ " with the level last year")
  = qualityResponse en None (atTime 1700000110000).
Proof.
  apply (added_words_never_lower_the_intent
           "Please compare: " "water quality" " with the level last year").
  reflexivity.
Defined.

(** X18. Of the location the dispatcher reads only whether there is one:
    two calls that differ in the location agree on every field but the
    text; they agree on the text too when both have a location or both
    have none, and for every intent but quality and level. *)
Theorem location_changes_only_the_wording language location location' tick userMessage :
  let a := generateResponse language location tick userMessage in
  let b := generateResponse language location' tick userMessage in
  id a = id b /\ isUser a = isUser b /\ timestamp a = timestamp b /\
  data a = data b /\ showChart a = showChart b /\
  showComparison a = showComparison b /\ suggestions a = suggestions b /\
  ((location = None <-> location' = None) -> a = b) /\
  (classify userMessage <> Quality -> classify userMessage <> Level -> a = b).
Proof.
  cbv zeta. rewrite !generateResponse_classify.
  destruct (classify userMessage); repeat split;
    try reflexivity; try (intros; contradiction);
    intros [H1 H2]; destruct location, location';
    try reflexivity;
    first [ discriminate (H1 eq_refl) | discriminate (H2 eq_refl) ].
Qed.

Lemma location_changes_only_the_wording_witness :
  generateResponse hi
    (Some {| latitude := 28.5; longitude := 77.25; city := None; state := None |})
    (atTime 1700000120000) "water level"
  = generateResponse hi
      (Some {| latitude := 19; longitude := 72.75; city := None; state := None |})
      (atTime 1700000120000) "water level".
Proof.
  destruct (location_changes_only_the_wording hi
              (Some {| latitude := 28.5; longitude := 77.25; city := None; state := None |})
              (Some {| latitude := 19; longitude := 72.75; city := None; state := None |})
              (atTime 1700000120000) "water level")
    as (_ & _ & _ & _ & _ & _ & _ & H & _).
  apply H. split; discriminate.
Defined.

(** ** The earlier variant *)

(** X19. The current dispatcher extends the earlier one.  Unless the
    question is a level question, both give answers with the same id,
    timestamp, payload, chart flag and comparison flag, and the same text
    for comparison, prediction and help; the earlier one never has chips.
    A level question, which now gets the level chart, used to get the
    help text without chart. *)
Theorem previous_dispatcher_is_extended language location tick userMessage :
  let old := Previous.generateResponse language tick userMessage in
  let new := generateResponse language location tick userMessage in
  suggestions old = None /\
  id old = id new /\ isUser old = isUser new /\ timestamp old = timestamp new /\
  (classify userMessage <> Level ->
     data old = data new /\ showChart old = showChart new /\
     showComparison old = showComparison new /\
     (classify userMessage <> Quality -> text old = text new)) /\
  (classify userMessage = Level ->
     text old = text (defaultResponse language tick) /\
     bubble old = [] /\ chartFlag new = true).
Proof.
  cbv zeta. rewrite generateResponse_classify.
  unfold Previous.generateResponse, classify, tests. cbn [keywords].
  destruct (JS.includes _ "quality" || JS.includes _ _);
    [repeat split; (discriminate || contradiction)|].
  destruct (JS.includes _ "compare" || JS.includes _ _);
    [repeat split; (discriminate || contradiction)|].
  destruct (JS.includes _ "predict" || JS.includes _ _);
    [repeat split; (discriminate || contradiction)|].
  destruct (JS.includes _ "level" || JS.includes _ _);
    repeat split; (discriminate || contradiction).
Qed.

Lemma previous_dispatcher_is_extended_witness :
  bubble (Previous.generateResponse en (atTime 1700000130000) "Show water levels") = [].
Proof.
  apply (previous_dispatcher_is_extended en None (atTime 1700000130000)
           "Show water levels").
  reflexivity.
Defined.

(** ** Switching the language *)





